(** * Squinched Media Setup: the projection geometry and its per-frame cache

    A shallow embedding of [blender-squinch.py].  Python floats and the
    components of [mathutils] vectors are read as real numbers: the
    statements below are about the exact arithmetic the code writes down.
    The plane geometry is embedded a second time in rounded arithmetic, in
    the module [Binary32], for the statements that exact arithmetic alone
    does not settle.  Blender objects are records, the
    [bpy.data.objects] collection a finite map from names to objects, the
    module-level [_squinch_cache] an explicit state threaded through the
    driver functions, and Python exceptions an error monad. *)

From Stdlib Require Import Reals Lra Lia ZArith List.
From Stdlib Require SpecFloat.
From stdpp Require Import base gmap strings.
Import ListNotations.

Local Open Scope R_scope.

(** ** Comparisons of floats as booleans *)

Definition ltb (x y : R) : bool := if Rlt_dec x y then true else false.
Definition leb (x y : R) : bool := if Rle_dec x y then true else false.

(** Python's two-argument [max(a, b)] and [min(a, b)]: the first argument
    is kept unless the second is strictly larger (smaller). *)

Definition py_max2 (a b : R) : R := if ltb a b then b else a.
Definition py_min2 (a b : R) : R := if ltb b a then b else a.

(** [max(l)] and [min(l)] on a list whose first item is [x]. *)

Definition max_of (x : R) (l : list R) : R := fold_left py_max2 l x.
Definition min_of (x : R) (l : list R) : R := fold_left py_min2 l x.

(** ** mathutils.Vector *)

Record Vector : Type := vec { vx : R; vy : R; vz : R }.

Definition vadd (a b : Vector) : Vector :=
  vec (vx a + vx b) (vy a + vy b) (vz a + vz b).
Definition vsub (a b : Vector) : Vector :=
  vec (vx a - vx b) (vy a - vy b) (vz a - vz b).
Definition vneg (a : Vector) : Vector := vec (- vx a) (- vy a) (- vz a).
Definition vscale (s : R) (a : Vector) : Vector :=
  vec (s * vx a) (s * vy a) (s * vz a).
Definition vdiv (a : Vector) (s : R) : Vector :=
  vec (vx a / s) (vy a / s) (vz a / s).
Definition dot (a b : Vector) : R := vx a * vx b + vy a * vy b + vz a * vz b.
Definition cross (a b : Vector) : Vector :=
  vec (vy a * vz b - vz a * vy b)
      (vz a * vx b - vx a * vz b)
      (vx a * vy b - vy a * vx b).
Definition length (a : Vector) : R := sqrt (dot a a).

(** [Vector.normalized()]: the vector over its length, and the zero vector
    for a vector of zero length. *)
Definition normalized (a : Vector) : Vector :=
  if ltb 0 (length a) then vdiv a (length a) else vec 0 0 0.

Definition vzero : Vector := vec 0 0 0.
Definition unit_y : Vector := vec 0 1 0.
Definition unit_z : Vector := vec 0 0 1.

(** ** mathutils.Matrix

    A 3x3 matrix is its three rows.  An object matrix is affine: its 3x3
    part and its translation column (the last row is 0 0 0 1). *)

Record Matrix3 : Type := mat3 { row0 : Vector; row1 : Vector; row2 : Vector }.

Definition transposed (m : Matrix3) : Matrix3 :=
  mat3 (vec (vx (row0 m)) (vx (row1 m)) (vx (row2 m)))
       (vec (vy (row0 m)) (vy (row1 m)) (vy (row2 m)))
       (vec (vz (row0 m)) (vz (row1 m)) (vz (row2 m))).

Definition col0 (m : Matrix3) : Vector := row0 (transposed m).
Definition col1 (m : Matrix3) : Vector := row1 (transposed m).
Definition col2 (m : Matrix3) : Vector := row2 (transposed m).

Definition mat3_mul_vec (m : Matrix3) (v : Vector) : Vector :=
  vec (dot (row0 m) v) (dot (row1 m) v) (dot (row2 m) v).

Definition mat3_mul (a b : Matrix3) : Matrix3 :=
  transposed (mat3 (mat3_mul_vec a (col0 b))
                   (mat3_mul_vec a (col1 b))
                   (mat3_mul_vec a (col2 b))).

Definition identity3 : Matrix3 := mat3 (vec 1 0 0) (vec 0 1 0) (vec 0 0 1).

Record Matrix : Type := mat4 { to_3x3 : Matrix3; translation : Vector }.

(** [m @ v] for a 4x4 matrix and a 3D vector. *)
Definition mat_mul_vec (m : Matrix) (v : Vector) : Vector :=
  vadd (mat3_mul_vec (to_3x3 m) v) (translation m).

(** [a @ b] for two 4x4 matrices. *)
Definition mat_mul (a b : Matrix) : Matrix :=
  mat4 (mat3_mul (to_3x3 a) (to_3x3 b))
       (mat_mul_vec a (translation b)).

Definition Translation (loc : Vector) : Matrix := mat4 identity3 loc.
Definition to_4x4 (m : Matrix3) : Matrix := mat4 m vzero.
Definition identity4 : Matrix := mat4 identity3 vzero.

(** ** Blender data blocks *)

Record Polygon : Type := { normal : Vector; area : R }.

Record Mesh : Type := { vertices : list Vector; polygons : list Polygon }.

Record Camera : Type := { sensor_width : R; lens : R }.

(** What [obj.data] can be: a mesh, a camera, or [None] (an empty). *)
Inductive ObData : Type :=
| MeshData (me : Mesh)
| CameraData (cam : Camera)
| NoData.

(** An object whose [data] has type [D]; [parent] is the parent's name. *)
Record Object (D : Type) : Type := {
  name : string;
  matrix_world : Matrix;
  data : D;
  parent : option string;
  matrix_parent_inverse : Matrix
}.
Arguments name {D} _.
Arguments matrix_world {D} _.
Arguments data {D} _.
Arguments parent {D} _.
Arguments matrix_parent_inverse {D} _.

(** ** Plane basis *)

Definition _mesh_world_vertices (obj : Object Mesh) : list Vector :=
  map (mat_mul_vec (matrix_world obj)) (vertices (data obj)).

(** The shared [up_ref] / [u] / [v] construction from a normal [n]. *)
Definition build_basis (n : Vector) : Vector * Vector :=
  let up_ref := if ltb (Rabs (dot n unit_z)) 0.999 then unit_z else unit_y in
  let u := normalized (cross up_ref n) in
  let v := normalized (cross n u) in
  (u, v).

(** Averaged face normal: [Some] when faces exist and do not cancel. *)
Definition polygons_normal (plane : Object Mesh) : option Vector :=
  match polygons (data plane) with
  | [] => None
  | _ :: _ =>
      let m3 := to_3x3 (matrix_world plane) in
      let acc :=
        fold_left (fun acc poly =>
                     vadd acc (vscale (area poly) (mat3_mul_vec m3 (normal poly))))
                  (polygons (data plane)) vzero in
      if ltb 1e-12 (length acc) then Some (normalized acc) else None
  end.

(** Normal from the first three distinct points of a non-empty list. *)
Definition verts_normal (p0 : Vector) (verts : list Vector) : Vector :=
  let p1 := find (fun p => ltb 1e-8 (length (vsub p p0))) (drop 1 verts) in
  let p2 :=
    match p1 with
    | Some p1 =>
        find (fun p => ltb 1e-8 (length (cross (vsub p p0) (vsub p1 p0))))
             (drop 2 verts)
    | None => None
    end in
  match p1, p2 with
  | Some p1, Some p2 => normalized (cross (vsub p1 p0) (vsub p2 p0))
  | _, _ => unit_z
  end.

(** Returns [(origin, axis_u, axis_v, normal)] in world space. *)
Definition _compute_plane_basis (plane : Object Mesh)
  : Vector * Vector * Vector * Vector :=
  let verts := _mesh_world_vertices plane in
  match verts with
  | [] =>
      let n := normalized (mat3_mul_vec (to_3x3 (matrix_world plane)) unit_z) in
      let '(u, v) := build_basis n in
      let o := translation (matrix_world plane) in
      (o, u, v, n)
  | p0 :: _ =>
      let o := vdiv (fold_left vadd verts vzero) (INR (List.length verts)) in
      let n :=
        match polygons_normal plane with
        | Some n => n
        | None => verts_normal p0 verts
        end in
      let '(u, v) := build_basis n in
      (o, u, v, n)
  end.

(** ** Plane corners and extents *)

Record Corners : Type := {
  bottom_left : Vector;
  bottom_right : Vector;
  top_left : Vector;
  top_right : Vector
}.

(** [(min(xs), max(xs)) if xs else (0.0, 1.0)]. *)
Definition extents (xs : list R) : R * R :=
  match xs with
  | [] => (0, 1)
  | x :: l => (min_of x l, max_of x l)
  end.

(** The inner [pos(uu, vv)] of [get_plane_corner_world_positions]. *)
Definition pos (o u v : Vector) (uu vv : R) : Vector :=
  let o_u := dot o u in
  let o_v := dot o v in
  vadd (vadd o (vscale (uu - o_u) u)) (vscale (vv - o_v) v).

Definition get_plane_corner_world_positions (plane : Object Mesh) : Corners :=
  let '(o, u, v, n) := _compute_plane_basis plane in
  let verts := _mesh_world_vertices plane in
  let us := map (fun p => dot p u) verts in
  let vs := map (fun p => dot p v) verts in
  let '(min_u, max_u) := extents us in
  let '(min_v, max_v) := extents vs in
  {| bottom_left := pos o u v min_u min_v;
     bottom_right := pos o u v max_u min_v;
     top_left := pos o u v min_u max_v;
     top_right := pos o u v max_u max_v |}.

Definition width_height_from_corners (plane : Object Mesh) : R * R :=
  let '(o, u, v, n) := _compute_plane_basis plane in
  match _mesh_world_vertices plane with
  | [] => (1, 1)
  | p :: ps =>
      let us := map (fun p => dot p u) ps in
      let vs := map (fun p => dot p v) ps in
      let width := max_of (dot p u) us - min_of (dot p u) us in
      let height := max_of (dot p v) vs - min_of (dot p v) vs in
      (Rabs width, Rabs height)
  end.

(** ** Exceptions *)

Inductive PyExn : Type := AttributeError | ZeroDivisionError | ValueError.

Inductive exc (A : Type) : Type :=
| Ret (a : A)
| Raise (e : PyExn).
Arguments Ret {A} a.
Arguments Raise {A} e.

#[global] Instance exc_ret : MRet exc := fun A a => Ret a.
#[global] Instance exc_bind : MBind exc := fun A B k c =>
  match c with
  | Ret a => k a
  | Raise e => Raise e
  end.

(** Float division [x / y], which raises for a zero divisor. *)
Definition truediv (x y : R) : exc R :=
  if Req_dec_T y 0 then Raise ZeroDivisionError else Ret (x / y).

(** [max(l)], [min(l)] and [sum(l)] of a list. *)
Definition py_max (l : list R) : exc R :=
  match l with
  | [] => Raise ValueError
  | x :: l => Ret (max_of x l)
  end.
Definition py_min (l : list R) : exc R :=
  match l with
  | [] => Raise ValueError
  | x :: l => Ret (min_of x l)
  end.
Definition py_sum (l : list R) : R := fold_left Rplus l 0.

(** [round(x)] of a float: to the nearest integer, a half to the even one. *)
Definition py_round (x : R) : Z :=
  let n := Int_part x in
  let f := x - IZR n in
  if ltb f (1 / 2) then n
  else if ltb (1 / 2) f then (n + 1)%Z
  else if Z.even n then n else (n + 1)%Z.

(** ** The scene and [bpy.data] *)

Record RenderSettings : Type := {
  resolution_x : Z;
  resolution_y : Z;
  pixel_aspect_x : R;
  pixel_aspect_y : R
}.

(** [props] holds the scene's custom properties, [scene[key]]. *)
Record Scene : Type := {
  frame_current : Z;
  frame_subframe : R;
  props : gmap string string;
  render : RenderSettings
}.

Record Bpy : Type := {
  scene : Scene;
  objects : gmap string (Object ObData)
}.

Definition get_scene (bpy : Bpy) : Scene := scene bpy.

Definition find_object (bpy : Bpy) (name : string) : option (Object ObData) :=
  objects bpy !! name.

Definition get_corner_empty_name (plane_name label : string) : string :=
  "Squinch_" +:+ plane_name +:+ "_" +:+ label.

Definition get_orientation_empty_name (plane_name : string) : string :=
  "Squinch_Orientation_" +:+ plane_name.

Definition get_corner_empties (bpy : Bpy) (plane_name : string)
  : list (option (Object ObData)) :=
  let names := [
    get_corner_empty_name plane_name "bottom_left";
    get_corner_empty_name plane_name "bottom_right";
    get_corner_empty_name plane_name "top_left";
    get_corner_empty_name plane_name "top_right"
  ] in
  map (find_object bpy) names.

(** ** Render aspect *)

Definition even_up (n : Z) : Z :=
  if negb (n mod 2 =? 0)%Z then (n + 1)%Z else n.

(** The scene after the call; an early [return] leaves it as it was. *)
Definition set_render_aspect_to_plane (scene : Scene) (plane : Object Mesh)
  : exc Scene :=
  let '(width, height) := width_height_from_corners plane in
  if leb width 0 || leb height 0 then Ret scene
  else
    aspect ← truediv width height;
    let res_x := Z.max 2 (resolution_x (render scene)) in
    let res_x := even_up res_x in
    q ← truediv (IZR res_x) aspect;
    let res_y := Z.max 2 (py_round q) in
    let res_y := even_up res_y in
    Ret {| frame_current := frame_current scene;
           frame_subframe := frame_subframe scene;
           props := props scene;
           render := {| resolution_x := res_x;
                        resolution_y := res_y;
                        pixel_aspect_x := 1;
                        pixel_aspect_y := 1 |} |}.

(** ** Driver functions and their cache *)

Module SquinchData.
Record t : Type := mk {
  width_u : R;
  center_u : R;
  center_v : R;
  sensor_width : R;
  current_lens : R
}.
End SquinchData.

Module Cache.
Record t : Type := mk {
  frame : Z;
  data : option SquinchData.t
}.
End Cache.

Definition _squinch_cache : Cache.t := Cache.mk (-1) None.

(** [not s] for a custom property that is a string or unset. *)
Definition falsy (s : option string) : bool :=
  match s with
  | None => true
  | Some s => if decide (s = "") then true else false
  end.

(** The objects of a list with no [None] in it. *)
Fixpoint all_present {A : Type} (l : list (option A)) : option (list A) :=
  match l with
  | [] => Some []
  | None :: _ => None
  | Some a :: l =>
      match all_present l with
      | Some r => Some (a :: r)
      | None => None
      end
  end.

(** [cam.data.sensor_width] and [cam.data.lens] exist on camera data only. *)
Definition camera_data (d : ObData) : exc Camera :=
  match d with
  | CameraData c => Ret c
  | _ => Raise AttributeError
  end.

Section Addon.

(** [Matrix.inverted_safe()] of mathutils. *)
Variable inverted_safe : Matrix -> Matrix.

(** A fresh empty, [bpy.data.objects.new(name, None)]; its display type and
    size and its link to the collection are not part of the model. *)
Definition new_empty (name : string) : Object ObData :=
  {| name := name; matrix_world := identity4; data := NoData;
     parent := None; matrix_parent_inverse := identity4 |}.

Definition ensure_orientation_empty
    (bpy : Bpy) (plane : Object Mesh) (camera : option (Object ObData))
  : Object ObData * Bpy :=
  let nm := get_orientation_empty_name (name plane) in
  let obj :=
    match find_object bpy nm with
    | Some obj => obj
    | None => new_empty nm
    end in
  let '(o, u, v, n) := _compute_plane_basis plane in
  let '(u, v, n) :=
    match camera with
    | Some camera =>
        let side := dot (vsub (translation (matrix_world camera)) o) n in
        if ltb side 0 then
          let n := vneg n in
          let '(u, v) := build_basis n in
          (u, v, n)
        else (u, v, n)
    | None => (u, v, n)
    end in
  let basis := transposed (mat3 u v n) in
  let mw := mat_mul (Translation o) (to_4x4 basis) in
  let obj :=
    {| name := name obj; matrix_world := mw; data := data obj;
       parent := Some (name plane);
       matrix_parent_inverse := inverted_safe (matrix_world plane) |} in
  (obj, {| scene := scene bpy; objects := <[nm := obj]> (objects bpy) |}).

(** Camera-local coordinates of a corner empty. *)
Definition corner_cam (cam e : Object ObData) : Vector :=
  mat_mul_vec (inverted_safe (matrix_world cam))
              (translation (matrix_world e)).

(** One pass of the [for p in corners_cam] loop. *)
Definition normalize_corner (p : Vector) : exc (R * R) :=
  let eps := 1e-4 in
  let dz := py_max2 (- vz p) eps in
  u ← truediv (vx p) dz;
  v ← truediv (vy p) dz;
  mret (u, v).

Fixpoint normalize_corners (ps : list Vector) : exc (list R * list R) :=
  match ps with
  | [] => mret ([], [])
  | p :: ps =>
      uv ← normalize_corner p;
      r ← normalize_corners ps;
      mret (fst uv :: fst r, snd uv :: snd r)
  end.

(** The body of the [try] block, up to the [data] dictionary. *)
Definition squinch_try (cam : Object ObData) (empties : list (Object ObData))
  : exc SquinchData.t :=
  let cam_inv := inverted_safe (matrix_world cam) in
  let corners_cam :=
    map (fun e => mat_mul_vec cam_inv (translation (matrix_world e)))
        empties in
  uvs ← normalize_corners corners_cam;
  let '(u_vals, v_vals) := uvs in
  u_min ← py_min u_vals;
  u_max ← py_max u_vals;
  let width_u := u_max - u_min in
  let center_u := (u_min + u_max) * 0.5 in
  let center_v := py_sum v_vals * 0.25 in
  cd ← camera_data (data cam);
  let sensor_width := sensor_width cd in
  cl ← camera_data (data cam);
  mret (SquinchData.mk width_u center_u center_v sensor_width (lens cl)).

(** Calculate all squinch values once per frame and cache them. *)
Definition _calculate_squinch_data (bpy : Bpy) (cache : Cache.t)
  : option SquinchData.t * Cache.t :=
  let scene := get_scene bpy in
  let current_frame := frame_current scene in
  if (Cache.frame cache =? current_frame)%Z
     && bool_decide (is_Some (Cache.data cache))
  then (Cache.data cache, cache)
  else
    let camera_name := props scene !! "squinch_camera_name" in
    let plane_name := props scene !! "squinch_plane_name" in
    if falsy camera_name || falsy plane_name then (None, cache)
    else
      match camera_name ≫= find_object bpy, plane_name ≫= find_object bpy with
      | Some cam, Some plane =>
          match all_present (get_corner_empties bpy (name plane)) with
          | None => (None, cache)
          | Some empties =>
              match squinch_try cam empties with
              | Ret data => (Some data, Cache.mk current_frame (Some data))
              | Raise _ => (None, cache)
              end
          end
      | _, _ => (None, cache)
      end.

Definition squinch_horizontal_fov (bpy : Bpy) (cache : Cache.t)
  : exc R * Cache.t :=
  let '(data, cache) := _calculate_squinch_data bpy cache in
  match data with
  | None => (Ret 35.0, cache)
  | Some data =>
      if leb (Rabs (SquinchData.width_u data)) 1e-9 then (Ret 35.0, cache)
      else
        (focal ← truediv (SquinchData.sensor_width data)
                         (SquinchData.width_u data);
         mret (py_max2 1.0 focal), cache)
  end.

Definition squinch_horizontal_shift (bpy : Bpy) (cache : Cache.t)
  : exc R * Cache.t :=
  let '(data, cache) := _calculate_squinch_data bpy cache in
  match data with
  | None => (Ret 0.0, cache)
  | Some data =>
      if leb (Rabs (SquinchData.width_u data)) 1e-9 then (Ret 0.0, cache)
      else
        (truediv (SquinchData.center_u data) (SquinchData.width_u data),
         cache)
  end.

Definition squinch_vertical_shift (bpy : Bpy) (cache : Cache.t)
  : exc R * Cache.t :=
  let '(data, cache) := _calculate_squinch_data bpy cache in
  match data with
  | None => (Ret 0.0, cache)
  | Some data =>
      if leb (Rabs (SquinchData.width_u data)) 1e-9 then (Ret 0.0, cache)
      else
        (truediv (SquinchData.center_v data) (SquinchData.width_u data),
         cache)
  end.

End Addon.

(** ** Vocabulary of the statements *)

(** Perspective-normalized coordinates of a camera-local point. *)
Definition persp_u (p : Vector) : R := vx p / Rmax (- vz p) 1e-4.
Definition persp_v (p : Vector) : R := vy p / Rmax (- vz p) 1e-4.

Definition Rmax4 (a b c d : R) : R := Rmax (Rmax (Rmax a b) c) d.
Definition Rmin4 (a b c d : R) : R := Rmin (Rmin (Rmin a b) c) d.

(** The cache holds a result for the current frame. *)
Definition cache_hit (bpy : Bpy) (cache : Cache.t) : Prop :=
  Cache.frame cache = frame_current (scene bpy)
  /\ is_Some (Cache.data cache).


(** Why a recomputation gives no data: a configuration key that is unset or
    empty, a camera, plane or corner empty that does not resolve, or an
    exception inside the [try] block. *)
Inductive Failure (inverted_safe : Matrix -> Matrix) (bpy : Bpy) : Prop :=
| unset_camera_name :
    falsy (props (scene bpy) !! "squinch_camera_name") = true ->
    Failure inverted_safe bpy
| unset_plane_name :
    falsy (props (scene bpy) !! "squinch_plane_name") = true ->
    Failure inverted_safe bpy
| unresolved_camera camera_name :
    props (scene bpy) !! "squinch_camera_name" = Some camera_name ->
    find_object bpy camera_name = None ->
    Failure inverted_safe bpy
| unresolved_plane plane_name :
    props (scene bpy) !! "squinch_plane_name" = Some plane_name ->
    find_object bpy plane_name = None ->
    Failure inverted_safe bpy
| unresolved_corner plane_name plane :
    props (scene bpy) !! "squinch_plane_name" = Some plane_name ->
    find_object bpy plane_name = Some plane ->
    In None (get_corner_empties bpy (name plane)) ->
    Failure inverted_safe bpy
| geometry_exception camera_name plane_name cam plane empties e :
    props (scene bpy) !! "squinch_camera_name" = Some camera_name ->
    props (scene bpy) !! "squinch_plane_name" = Some plane_name ->
    find_object bpy camera_name = Some cam ->
    find_object bpy plane_name = Some plane ->
    all_present (get_corner_empties bpy (name plane)) = Some empties ->
    squinch_try inverted_safe cam empties = Raise e ->
    Failure inverted_safe bpy.

(** ** Example scenes *)

(** The inverse of a pure translation, the only matrices of the scenes
    below. *)
Definition inverted_translation (m : Matrix) : Matrix :=
  mat4 (to_3x3 m) (vneg (translation m)).

Definition object_at (nm : string) (loc : Vector) (d : ObData)
    (par : option string) : Object ObData :=
  {| name := nm; matrix_world := Translation loc; data := d;
     parent := par; matrix_parent_inverse := identity4 |}.

Definition square_mesh : Mesh :=
  {| vertices := [vec (-1) (-1) 0; vec 1 (-1) 0; vec 1 1 0; vec (-1) 1 0];
     polygons := [{| normal := unit_z; area := 4 |}] |}.

Definition demo_camera : Camera := {| sensor_width := 36; lens := 50 |}.

(** A camera "Camera" at [cam_loc], a plane "Plane" and its four corner
    empties at [c0] .. [c3]. *)
Definition demo_objects (cam_loc c0 c1 c2 c3 : Vector)
  : gmap string (Object ObData) :=
  <["Camera" := object_at "Camera" cam_loc (CameraData demo_camera) None]>
  (<["Plane" :=
       object_at "Plane" (vec 0 0 (-10)) (MeshData square_mesh) None]>
  (<["Squinch_Plane_bottom_left" :=
       object_at "Squinch_Plane_bottom_left" c0 NoData (Some "Plane")]>
  (<["Squinch_Plane_bottom_right" :=
       object_at "Squinch_Plane_bottom_right" c1 NoData (Some "Plane")]>
  (<["Squinch_Plane_top_left" :=
       object_at "Squinch_Plane_top_left" c2 NoData (Some "Plane")]>
  (<["Squinch_Plane_top_right" :=
       object_at "Squinch_Plane_top_right" c3 NoData (Some "Plane")]>
   ∅))))).

Definition demo_props : gmap string string :=
  <["squinch_camera_name" := "Camera"]>
  (<["squinch_plane_name" := "Plane"]> ∅).

Definition demo_render : RenderSettings :=
  {| resolution_x := 1920; resolution_y := 1080;
     pixel_aspect_x := 1; pixel_aspect_y := 1 |}.

Definition demo_bpy (frame : Z) (subframe : R) (cam_loc c0 c1 c2 c3 : Vector)
  : Bpy :=
  {| scene := {| frame_current := frame; frame_subframe := subframe;
                 props := demo_props; render := demo_render |};
     objects := demo_objects cam_loc c0 c1 c2 c3 |}.

(** The square of the spec: corners at (+-1, +-1, -10). *)
Definition square_scene (frame : Z) (subframe : R) (cam_loc : Vector) : Bpy :=
  demo_bpy frame subframe cam_loc
           (vec (-1) (-1) (-10)) (vec 1 (-1) (-10))
           (vec (-1) 1 (-10)) (vec 1 1 (-10)).

(** Four coincident corners. *)
Definition point_scene : Bpy :=
  demo_bpy 1 0 vzero (vec 0 0 (-5)) (vec 0 0 (-5)) (vec 0 0 (-5))
           (vec 0 0 (-5)).

(** A scene on which the add-on was never set up. *)
Definition bare_scene : Bpy :=
  {| scene := {| frame_current := 1; frame_subframe := 0;
                 props := ∅; render := demo_render |};
     objects := ∅ |}.

(** What the square scene caches, seen from a camera at distance [dist]. *)
Definition square_data (dist : R) : SquinchData.t :=
  SquinchData.mk (2 / dist) 0 0 36 50.

(** A 2 x 1 rectangle in the XY plane. *)
Definition rect_plane : Object Mesh :=
  {| name := "Plane"; matrix_world := identity4;
     data := {| vertices := [vec 0 0 0; vec 2 0 0; vec 2 1 0; vec 0 1 0];
                polygons := [{| normal := unit_z; area := 2 |}] |};
     parent := None; matrix_parent_inverse := identity4 |}.

(** A mesh of one vertex and no face, one of two coinciding vertices, and
    a camera behind the 2 x 1 rectangle. *)
Definition point_plane : Object Mesh :=
  {| name := "Plane"; matrix_world := Translation (vec 1 2 3);
     data := {| vertices := [vec 0 0 0]; polygons := [] |};
     parent := None; matrix_parent_inverse := identity4 |}.

Definition twin_plane : Object Mesh :=
  {| name := "Plane"; matrix_world := Translation (vec 1 2 3);
     data := {| vertices := [vec 1 1 1; vec 1 1 1]; polygons := [] |};
     parent := None; matrix_parent_inverse := identity4 |}.

Definition camera_behind : Object ObData :=
  object_at "Camera" (vec 0 0 (-5)) (CameraData demo_camera) None.

(** The add-on is set up on [bpy]: both keys hold names, the camera [cam]
    carries the camera data [cd], the plane resolves and its four corner
    empties are [e0] .. [e3]. *)
Definition Configured (bpy : Bpy) (cam : Object ObData) (cd : Camera)
    (e0 e1 e2 e3 : Object ObData) : Prop :=
  exists camera_name plane_name plane,
    props (scene bpy) !! "squinch_camera_name" = Some camera_name
    /\ props (scene bpy) !! "squinch_plane_name" = Some plane_name
    /\ camera_name <> "" /\ plane_name <> ""
    /\ find_object bpy camera_name = Some cam
    /\ find_object bpy plane_name = Some plane
    /\ get_corner_empties bpy (name plane)
       = [Some e0; Some e1; Some e2; Some e3]
    /\ data cam = CameraData cd.

(** ** Setting a scene up *)

Section Setup.

(** [Matrix.inverted_safe()] of mathutils. *)
Variable inverted_safe : Matrix -> Matrix.

(** The object found under [nm], or else a fresh empty, moved to
    [location] and parented to [parent_obj].  The names its caller passes
    are longer than the parent's name, so the object is never the parent
    itself. *)
Definition ensure_empty {D : Type} (bpy : Bpy) (nm : string)
    (location : Vector) (parent_obj : Object D) : Object ObData * Bpy :=
  let obj :=
    match find_object bpy nm with
    | Some obj => obj
    | None => new_empty nm
    end in
  let obj :=
    {| name := name obj; matrix_world := Translation location;
       data := data obj; parent := Some (name parent_obj);
       matrix_parent_inverse := inverted_safe (matrix_world parent_obj) |} in
  (obj, {| scene := scene bpy; objects := <[nm := obj]> (objects bpy) |}).

(** [corners.items()], in the order the dictionary was written. *)
Definition corner_items (corners : Corners) : list (string * Vector) :=
  [("bottom_left", bottom_left corners);
   ("bottom_right", bottom_right corners);
   ("top_left", top_left corners);
   ("top_right", top_right corners)].

(** Returns the [created] dictionary and the store after the loop. *)
Definition create_corner_empties (bpy : Bpy) (plane : Object Mesh)
  : gmap string (Object ObData) * Bpy :=
  let corners := get_plane_corner_world_positions plane in
  fold_left
    (fun acc item =>
       let '(created, bpy) := acc in
       let '(label, loc) := item in
       let nm := get_corner_empty_name (name plane) label in
       let '(obj, bpy) := ensure_empty bpy nm loc plane in
       (<[label := obj]> created, bpy))
    (corner_items corners) (∅, bpy).

End Setup.

(** ** Constraints *)

(** A constraint, with the attributes the add-on reads or writes; [target]
    is the target object's name. *)
Record Constraint : Type := {
  con_name : string;
  con_type : string;
  target : option string;
  mix_mode : string;
  use_x : bool;
  use_y : bool;
  use_z : bool;
  target_space : string;
  owner_space : string
}.

(** [camera.constraints] after the call, given what it was before. *)
Definition add_copy_rotation_constraint
    (constraints : list Constraint) (target_obj : Object ObData)
  : list Constraint :=
  let nm := "Squinch Copy Rotation" in
  let constraints := filter (fun c => con_name c <> nm) constraints in
  constraints ++
  [{| con_name := nm; con_type := "COPY_ROTATION";
      target := Some (name target_obj); mix_mode := "REPLACE";
      use_x := true; use_y := true; use_z := true;
      target_space := "WORLD"; owner_space := "WORLD" |}].

(** A scene with a camera and the 2 x 1 rectangle, before any helper
    exists. *)
Definition fresh_scene : Bpy :=
  {| scene := {| frame_current := 1; frame_subframe := 0;
                 props := demo_props; render := demo_render |};
     objects :=
       <["Camera" :=
           object_at "Camera" (vec 1 0 5) (CameraData demo_camera) None]>
       (<["Plane" :=
            object_at "Plane" vzero (MeshData (data rect_plane)) None]> ∅) |}.

(** How often the character [a] occurs in [s]. *)
Fixpoint count_char (a : Ascii.ascii) (s : string) : nat :=
  match s with
  | EmptyString => 0
  | String b s => (if decide (a = b) then 1 else 0) + count_char a s
  end.

(** * The plane geometry in the arithmetic of mathutils

    A second embedding of [_compute_plane_basis] and
    [get_plane_corner_world_positions], in the arithmetic the code runs in:
    a [mathutils] vector keeps its components in binary32 and every
    operation on them is rounded to binary32; a dot product, and with it a
    length, is accumulated in binary64 and comes back as a Python float;
    Python floats are binary64.  Rounding is to nearest, ties to even. *)
Module Binary32.

Import SpecFloat.

Definition float : Type := spec_float.

Definition f32_add : float -> float -> float := SFadd 24 128.
Definition f32_sub : float -> float -> float := SFsub 24 128.
Definition f32_mul : float -> float -> float := SFmul 24 128.
Definition f32_div : float -> float -> float := SFdiv 24 128.
Definition f64_add : float -> float -> float := SFadd 53 1024.
Definition f64_sub : float -> float -> float := SFsub 53 1024.
Definition f64_div : float -> float -> float := SFdiv 53 1024.
Definition f64_sqrt : float -> float := SFsqrt 53 1024.

(** A binary64 value stored in binary32. *)
Definition to_f32 (x : float) : float :=
  match x with
  | S754_finite s m e => binary_round 24 128 s m e
  | _ => x
  end.

(** [m * 2^e] as a binary32 value, and the binary64 literal [n / d] of
    two integers. *)
Definition f32 (m e : Z) : float := binary_normalize 24 128 m e false.
Definition literal (n d : Z) : float :=
  f64_div (binary_normalize 53 1024 n 0 false)
          (binary_normalize 53 1024 d 0 false).

(** Comparisons of Python floats, on binary64 representations. *)
Definition to_f64 (x : float) : float :=
  match x with
  | S754_finite s m e => binary_round 53 1024 s m e
  | _ => x
  end.
Definition ltb (x y : float) : bool := SFltb (to_f64 x) (to_f64 y).

Definition zero : float := S754_zero false.
Definition one : float := f32 1 0.

(** ** mathutils.Vector *)

Record Vector : Type := vec { vx : float; vy : float; vz : float }.

Definition vadd (a b : Vector) : Vector :=
  vec (f32_add (vx a) (vx b)) (f32_add (vy a) (vy b)) (f32_add (vz a) (vz b)).
Definition vsub (a b : Vector) : Vector :=
  vec (f32_sub (vx a) (vx b)) (f32_sub (vy a) (vy b)) (f32_sub (vz a) (vz b)).

(** [a * s] and [a / s] for a Python float [s]: the scalar is stored in
    binary32 first, and a division multiplies by its reciprocal. *)
Definition vscale (s : float) (a : Vector) : Vector :=
  let s := to_f32 s in
  vec (f32_mul (vx a) s) (f32_mul (vy a) s) (f32_mul (vz a) s).
Definition vdiv (a : Vector) (s : float) : Vector :=
  vscale (f32_div one (to_f32 s)) a.

(** [a.dot(b)]: binary32 products, summed in binary64 from the last
    component to the first. *)
Definition dot (a b : Vector) : float :=
  f64_add (f64_add (f64_add zero (f32_mul (vz a) (vz b)))
                   (f32_mul (vy a) (vy b)))
          (f32_mul (vx a) (vx b)).

Definition cross (a b : Vector) : Vector :=
  vec (f32_sub (f32_mul (vy a) (vz b)) (f32_mul (vz a) (vy b)))
      (f32_sub (f32_mul (vz a) (vx b)) (f32_mul (vx a) (vz b)))
      (f32_sub (f32_mul (vx a) (vy b)) (f32_mul (vy a) (vx b))).

Definition length (a : Vector) : float := f64_sqrt (dot a a).

(** [a.normalized()]: the components times the binary32 reciprocal of the
    length, and the zero vector for a squared length of at most 1e-35. *)
Definition normalized (a : Vector) : Vector :=
  let d := dot a a in
  if ltb (literal 1 (10 ^ 35)) d then
    vscale (f32_div one (to_f32 (f64_sqrt d))) a
  else vec zero zero zero.

Definition unit_y : Vector := vec zero one zero.
Definition unit_z : Vector := vec zero zero one.

(** ** mathutils.Matrix: the 3x3 part by rows, and the translation *)

Record Matrix3 : Type := mat3 { row0 : Vector; row1 : Vector; row2 : Vector }.
Record Matrix : Type := mat4 { to_3x3 : Matrix3; translation : Vector }.

(** One row of [m @ v]: binary32 products summed in binary64, the sum
    stored in binary32. *)
Definition row_mul (r v : Vector) : float :=
  f64_add (f64_add (f64_add zero (f32_mul (vx r) (vx v)))
                   (f32_mul (vy r) (vy v)))
          (f32_mul (vz r) (vz v)).

Definition mat3_mul_vec (m : Matrix3) (v : Vector) : Vector :=
  vec (to_f32 (row_mul (row0 m) v)) (to_f32 (row_mul (row1 m) v))
      (to_f32 (row_mul (row2 m) v)).

(** For a 4x4 matrix the vector is extended by 1.0. *)
Definition mat_mul_vec (m : Matrix) (v : Vector) : Vector :=
  let t := translation m in
  let r := to_3x3 m in
  vec (to_f32 (f64_add (row_mul (row0 r) v) (f32_mul (vx t) one)))
      (to_f32 (f64_add (row_mul (row1 r) v) (f32_mul (vy t) one)))
      (to_f32 (f64_add (row_mul (row2 r) v) (f32_mul (vz t) one))).

Definition identity4 : Matrix :=
  mat4 (mat3 (vec one zero zero) (vec zero one zero) (vec zero zero one))
       (vec zero zero zero).

(** ** Mesh objects *)

Record Polygon : Type := { normal : Vector; area : float }.
Record Mesh : Type := { vertices : list Vector; polygons : list Polygon }.
Record Object : Type := { matrix_world : Matrix; data : Mesh }.

Definition _mesh_world_vertices (obj : Object) : list Vector :=
  map (mat_mul_vec (matrix_world obj)) (vertices (data obj)).

Definition build_basis (n : Vector) : Vector * Vector :=
  let up_ref :=
    if ltb (SFabs (dot n unit_z)) (literal 999 1000) then unit_z
    else unit_y in
  let u := normalized (cross up_ref n) in
  let v := normalized (cross n u) in
  (u, v).

Definition polygons_normal (plane : Object) : option Vector :=
  match polygons (data plane) with
  | [] => None
  | _ :: _ =>
      let m3 := to_3x3 (matrix_world plane) in
      let acc :=
        fold_left (fun acc poly =>
                     vadd acc (vscale (area poly) (mat3_mul_vec m3 (normal poly))))
                  (polygons (data plane)) (vec zero zero zero) in
      if ltb (literal 1 (10 ^ 12)) (length acc) then Some (normalized acc)
      else None
  end.

Definition verts_normal (p0 : Vector) (verts : list Vector) : Vector :=
  let eps := literal 1 (10 ^ 8) in
  let p1 := find (fun p => ltb eps (length (vsub p p0))) (drop 1 verts) in
  let p2 :=
    match p1 with
    | Some p1 =>
        find (fun p => ltb eps (length (cross (vsub p p0) (vsub p1 p0))))
             (drop 2 verts)
    | None => None
    end in
  match p1, p2 with
  | Some p1, Some p2 => normalized (cross (vsub p1 p0) (vsub p2 p0))
  | _, _ => unit_z
  end.

Definition _compute_plane_basis (plane : Object)
  : Vector * Vector * Vector * Vector :=
  let verts := _mesh_world_vertices plane in
  match verts with
  | [] =>
      let n := normalized (mat3_mul_vec (to_3x3 (matrix_world plane)) unit_z) in
      let '(u, v) := build_basis n in
      let o := translation (matrix_world plane) in
      (o, u, v, n)
  | p0 :: _ =>
      let o := vdiv (fold_left vadd verts (vec zero zero zero))
                    (binary_normalize 53 1024 (Z.of_nat (List.length verts))
                                      0 false) in
      let n :=
        match polygons_normal plane with
        | Some n => n
        | None => verts_normal p0 verts
        end in
      let '(u, v) := build_basis n in
      (o, u, v, n)
  end.

(** Python's [min] and [max] of a list whose first item is [x]. *)
Definition min_of (x : float) (l : list float) : float :=
  fold_left (fun a b => if ltb b a then b else a) l x.
Definition max_of (x : float) (l : list float) : float :=
  fold_left (fun a b => if ltb a b then b else a) l x.

Definition extents (xs : list float) : float * float :=
  match xs with
  | [] => (zero, one)
  | x :: l => (min_of x l, max_of x l)
  end.

Definition pos (o u v : Vector) (uu vv : float) : Vector :=
  let o_u := dot o u in
  let o_v := dot o v in
  vadd (vadd o (vscale (f64_sub uu o_u) u)) (vscale (f64_sub vv o_v) v).

(** The four corners, in the order bottom_left, bottom_right, top_left,
    top_right. *)
Definition get_plane_corner_world_positions (plane : Object)
  : Vector * Vector * Vector * Vector :=
  let '(o, u, v, n) := _compute_plane_basis plane in
  let verts := _mesh_world_vertices plane in
  let us := map (fun p => dot p u) verts in
  let vs := map (fun p => dot p v) verts in
  let '(min_u, max_u) := extents us in
  let '(min_v, max_v) := extents vs in
  (pos o u v min_u min_v, pos o u v max_u min_v,
   pos o u v min_u max_v, pos o u v max_u max_v).



End Binary32.
Lemma ltb_true x y : ltb x y = true <-> x < y.
Proof. unfold ltb; destruct (Rlt_dec x y); split; auto; discriminate. Qed.

Lemma ltb_false x y : ltb x y = false <-> y <= x.
Proof.
  unfold ltb; destruct (Rlt_dec x y); split; auto; try discriminate; lra.
Qed.

Lemma leb_true x y : leb x y = true <-> x <= y.
Proof. unfold leb; destruct (Rle_dec x y); split; auto; discriminate. Qed.

Lemma leb_false x y : leb x y = false <-> y < x.
Proof.
  unfold leb; destruct (Rle_dec x y); split; auto; try discriminate; lra.
Qed.

(** * Vector algebra *)

Lemma vec_eq a b :
  vx a = vx b -> vy a = vy b -> vz a = vz b -> a = b.
Proof. destruct a, b; simpl; intros -> -> ->; reflexivity. Qed.

Lemma dot_self_nonneg a : 0 <= dot a a.
Proof. unfold dot; nra. Qed.


Lemma length_sqr a : length a * length a = dot a a.
Proof. unfold length; apply sqrt_sqrt, dot_self_nonneg. Qed.

Lemma length_unit a : dot a a = 1 -> length a = 1.
Proof. intros H; unfold length; rewrite H; apply sqrt_1. Qed.

Lemma dot_comm a b : dot a b = dot b a.
Proof. unfold dot; ring. Qed.

Lemma dot_vneg_r a b : dot a (vneg b) = - dot a b.
Proof. unfold dot, vneg; simpl; ring. Qed.

Lemma dot_vdiv_l a b s : dot (vdiv a s) b = dot a b / s.
Proof. unfold dot, vdiv, Rdiv; simpl; ring. Qed.

Lemma dot_vdiv_r a b s : dot a (vdiv b s) = dot a b / s.
Proof. unfold dot, vdiv, Rdiv; simpl; ring. Qed.

Lemma dot_cross_l a b : dot (cross a b) a = 0.
Proof. unfold dot, cross; simpl; ring. Qed.

Lemma dot_cross_r a b : dot (cross a b) b = 0.
Proof. unfold dot, cross; simpl; ring. Qed.

Lemma cross_vdiv_r a b s : cross a (vdiv b s) = vdiv (cross a b) s.
Proof. apply vec_eq; unfold cross, vdiv, Rdiv; simpl; ring. Qed.

Lemma cross_anticomm a b : cross a b = vneg (cross b a).
Proof. apply vec_eq; unfold cross, vneg; simpl; ring. Qed.

Lemma length_vneg a : length (vneg a) = length a.
Proof. unfold length; f_equal; unfold dot, vneg; simpl; ring. Qed.

(** Lagrange's identity. *)
Lemma dot_cross_cross a b :
  dot (cross a b) (cross a b) = dot a a * dot b b - dot a b * dot a b.
Proof. unfold dot, cross; simpl; ring. Qed.

(** The triple product expansion, for [a x (b x a)]. *)
Lemma cross_cross a b :
  cross a (cross b a) = vsub (vscale (dot a a) b) (vscale (dot a b) a).
Proof. apply vec_eq; unfold cross, vsub, vscale, dot; simpl; ring. Qed.

Lemma normalized_pos a : 0 < length a -> normalized a = vdiv a (length a).
Proof. intros H; unfold normalized; apply ltb_true in H; rewrite H; auto. Qed.

Lemma normalized_unit a : 0 < length a -> dot (normalized a) (normalized a) = 1.
Proof.
  intros H; rewrite normalized_pos by assumption.
  rewrite dot_vdiv_l, dot_vdiv_r, <- length_sqr.
  field; lra.
Qed.

Lemma normalized_of_unit a : dot a a = 1 -> normalized a = a.
Proof.
  intros H; pose proof (length_unit a H) as Hl.
  rewrite normalized_pos by lra.
  rewrite Hl; apply vec_eq; unfold vdiv; simpl; field.
Qed.

Lemma dot_normalized_l a b : dot a b = 0 -> dot (normalized a) b = 0.
Proof.
  intros H; unfold normalized; destruct (ltb 0 (length a)).
  - rewrite dot_vdiv_l, H; unfold Rdiv; ring.
  - unfold dot; simpl; ring.
Qed.

(** * The plane basis is orthonormal and right-handed *)

Lemma length_pos_of_dot a : 0 < dot a a -> 0 < length a.
Proof. intros H; unfold length; apply sqrt_lt_R0; exact H. Qed.

Lemma dot_unit_z n : dot n unit_z = vz n.
Proof. unfold dot, unit_z; simpl; ring. Qed.

Lemma dot_unit_y_l n : dot unit_y n = vy n.
Proof. unfold dot, unit_y; simpl; ring. Qed.

Lemma dot_unit_z_l n : dot unit_z n = vz n.
Proof. unfold dot, unit_z; simpl; ring. Qed.

Lemma unit_z_unit : dot unit_z unit_z = 1.
Proof. unfold dot, unit_z; simpl; ring. Qed.

Lemma unit_y_unit : dot unit_y unit_y = 1.
Proof. unfold dot, unit_y; simpl; ring. Qed.

(** The reference vector chosen by [build_basis] is never parallel to a unit
    normal. *)
Lemma up_ref_cross_pos n :
  dot n n = 1 ->
  let up_ref := if ltb (Rabs (dot n unit_z)) 0.999 then unit_z else unit_y in
  0 < length (cross up_ref n).
Proof.
  intros Hn up_ref; apply length_pos_of_dot; rewrite dot_cross_cross, Hn.
  subst up_ref; destruct (ltb (Rabs (dot n unit_z)) 0.999) eqn:E.
  - apply ltb_true in E; rewrite dot_unit_z in E.
    rewrite unit_z_unit, dot_unit_z_l.
    apply Rabs_def2 in E; nra.
  - apply ltb_false in E; rewrite dot_unit_z in E.
    rewrite unit_y_unit, dot_unit_y_l.
    assert (Hz : 0.999 * 0.999 <= vz n * vz n).
    { unfold Rabs in E; destruct (Rcase_abs (vz n)); nra. }
    unfold dot in Hn; nra.
Qed.

Lemma build_basis_orthonormal n :
  dot n n = 1 ->
  let '(u, v) := build_basis n in
  dot u u = 1 /\ dot v v = 1 /\ dot u v = 0 /\ dot u n = 0 /\ dot v n = 0
  /\ cross u v = n.
Proof.
  intros Hn; unfold build_basis.
  pose proof (up_ref_cross_pos n Hn) as Hpos; cbv zeta in Hpos.
  set (w := cross _ n) in *.
  set (u := normalized w).
  assert (Huu : dot u u = 1) by (apply normalized_unit; exact Hpos).
  assert (Hun : dot u n = 0) by (apply dot_normalized_l, dot_cross_r).
  assert (Hnu : dot n u = 0) by (rewrite dot_comm; exact Hun).
  assert (Hc : dot (cross n u) (cross n u) = 1).
  { rewrite dot_cross_cross, Hn, Huu, Hnu; ring. }
  rewrite (normalized_of_unit _ Hc).
  repeat split; auto.
  - rewrite dot_comm; apply dot_cross_r.
  - apply dot_cross_l.
  - rewrite cross_cross, Huu, Hun.
    apply vec_eq; unfold vsub, vscale; simpl; ring.
Qed.

Lemma polygons_normal_unit plane n :
  polygons_normal plane = Some n -> dot n n = 1.
Proof.
  unfold polygons_normal; destruct (polygons (data plane)); [discriminate|].
  set (acc := fold_left _ _ _).
  destruct (ltb 1e-12 (length acc)) eqn:E; [|discriminate].
  intros [= <-]; apply ltb_true in E; apply normalized_unit; lra.
Qed.

Lemma verts_normal_unit p0 verts : dot (verts_normal p0 verts) (verts_normal p0 verts) = 1.
Proof.
  unfold verts_normal.
  destruct (find _ (drop 1 verts)) as [p1|]; [|apply unit_z_unit].
  destruct (find _ (drop 2 verts)) as [p2|] eqn:E2; [|apply unit_z_unit].
  apply find_some in E2 as [_ E2]; apply ltb_true in E2.
  apply normalized_unit.
  rewrite cross_anticomm, length_vneg; lra.
Qed.

(** The normal of a plane with vertices has length one, whichever of the
    three ways it was obtained. *)
Lemma plane_normal_unit plane :
  _mesh_world_vertices plane <> [] ->
  let '(_, _, _, n) := _compute_plane_basis plane in dot n n = 1.
Proof.
  intros Hv; unfold _compute_plane_basis.
  destruct (_mesh_world_vertices plane) as [|p0 ps] eqn:E; [congruence|].
  set (n := match polygons_normal plane with Some n => n | None => _ end).
  assert (Hn : dot n n = 1).
  { subst n; destruct (polygons_normal plane) eqn:Ep.
    - eapply polygons_normal_unit; eauto.
    - apply verts_normal_unit. }
  destruct (build_basis n); exact Hn.
Qed.

Lemma plane_basis_exact plane :
  _mesh_world_vertices plane <> [] ->
  let '(_, u, v, n) := _compute_plane_basis plane in
  dot u u = 1 /\ dot v v = 1 /\ dot n n = 1
  /\ dot u v = 0 /\ dot u n = 0 /\ dot v n = 0 /\ cross u v = n.
Proof.
  intros Hv; pose proof (plane_normal_unit plane Hv) as Hn.
  unfold _compute_plane_basis in *.
  destruct (_mesh_world_vertices plane) as [|p0 ps]; [congruence|].
  set (n := match polygons_normal plane with Some n => n | None => _ end) in *.
  pose proof (build_basis_orthonormal n) as Hb.
  destruct (build_basis n) as [u v].
  specialize (Hb Hn); tauto.
Qed.


(** * Corners project back onto the extents *)





(** * The orientation frame faces the camera *)

Lemma transposed_involutive m : transposed (transposed m) = m.
Proof. destruct m as [[] [] []]; reflexivity. Qed.

Lemma mat3_eq a b :
  row0 a = row0 b -> row1 a = row1 b -> row2 a = row2 b -> a = b.
Proof. destruct a, b; simpl; intros -> -> ->; reflexivity. Qed.

Lemma mat3_mul_identity_l m : mat3_mul identity3 m = m.
Proof.
  destruct m as [[] [] []].
  apply mat3_eq; apply vec_eq; unfold mat3_mul, mat3_mul_vec, dot; simpl; ring.
Qed.

Lemma translation_mul_to_4x4 o m :
  mat_mul (Translation o) (to_4x4 m) = mat4 m o.
Proof.
  unfold mat_mul; simpl; rewrite mat3_mul_identity_l; f_equal.
  destruct o; apply vec_eq; unfold mat_mul_vec, mat3_mul_vec, dot; simpl; ring.
Qed.

Lemma cols_of_basis u v n :
  let m := transposed (mat3 u v n) in col0 m = u /\ col1 m = v /\ col2 m = n.
Proof.
  cbv zeta; unfold col0, col1, col2; rewrite transposed_involutive; auto.
Qed.

(** C7: with a camera given, the frame written to the orientation empty is
    anchored at the plane origin and its normal (third column) has a
    non-negative dot product with [camera position - origin].  When
    [side < 0] the normal is the negated plane normal and the two axes are
    rebuilt from it by the same construction; otherwise the plane basis is
    kept as it is. *)
Theorem orientation_faces_camera
    (inverted_safe : Matrix -> Matrix)
    (bpy : Bpy) (plane : Object Mesh) (camera : Object ObData) :
  let obj := fst (ensure_orientation_empty inverted_safe bpy plane (Some camera)) in
  let m := to_3x3 (matrix_world obj) in
  let '(o, u, v, n) := _compute_plane_basis plane in
  let to_camera := vsub (translation (matrix_world camera)) o in
  let side := dot to_camera n in
  translation (matrix_world obj) = o
  /\ 0 <= dot to_camera (col2 m)
  /\ (side < 0 ->
      col2 m = vneg n /\ (col0 m, col1 m) = build_basis (vneg n))
  /\ (0 <= side -> col0 m = u /\ col1 m = v /\ col2 m = n).
Proof.
  unfold ensure_orientation_empty.
  destruct (_compute_plane_basis plane) as [[[o u] v] n].
  cbv zeta.
  set (side := dot (vsub (translation (matrix_world camera)) o) n).
  destruct (ltb side 0) eqn:E.
  - apply ltb_true in E.
    destruct (build_basis (vneg n)) as [u' v'] eqn:Eb.
    rewrite translation_mul_to_4x4; simpl.
    destruct (cols_of_basis u' v' (vneg n)) as (-> & -> & ->).
    rewrite dot_vneg_r; fold side.
    repeat split; auto; lra.
  - apply ltb_false in E.
    rewrite translation_mul_to_4x4; simpl.
    destruct (cols_of_basis u v n) as (-> & -> & ->).
    fold side; repeat split; auto; lra.
Qed.

(** * Python [max], [min] and [sum] against their mathematical readings *)

Lemma py_max2_Rmax a b : py_max2 a b = Rmax a b.
Proof.
  unfold py_max2, Rmax; destruct (Rle_dec a b), (ltb a b) eqn:E; auto.
  - apply ltb_false in E; lra.
  - apply ltb_true in E; lra.
Qed.

Lemma py_min2_Rmin a b : py_min2 a b = Rmin a b.
Proof.
  unfold py_min2, Rmin; destruct (Rle_dec a b), (ltb b a) eqn:E; auto.
  - apply ltb_true in E; lra.
  - apply ltb_false in E; lra.
Qed.

Lemma max_of_4 a b c d :
  max_of a [b; c; d] = Rmax (Rmax (Rmax a b) c) d.
Proof. unfold max_of; simpl; rewrite !py_max2_Rmax; reflexivity. Qed.

Lemma min_of_4 a b c d :
  min_of a [b; c; d] = Rmin (Rmin (Rmin a b) c) d.
Proof. unfold min_of; simpl; rewrite !py_min2_Rmin; reflexivity. Qed.

Lemma py_sum_4 a b c d : py_sum [a; b; c; d] = a + b + c + d.
Proof. unfold py_sum; simpl; ring. Qed.

Lemma truediv_ok x y : y <> 0 -> truediv x y = Ret (x / y).
Proof. intros H; unfold truediv; destruct (Req_dec_T y 0); congruence. Qed.

(** The clamped depth is positive, so the perspective divide never fails. *)
Lemma clamped_depth_pos z : 0 < py_max2 (- z) 1e-4.
Proof.
  rewrite py_max2_Rmax; apply Rlt_le_trans with (r2 := 1e-4);
    [lra | apply Rmax_r].
Qed.

Lemma normalize_corner_ok p :
  normalize_corner p =
  Ret (vx p / Rmax (- vz p) 1e-4, vy p / Rmax (- vz p) 1e-4).
Proof.
  unfold normalize_corner; cbv zeta.
  pose proof (clamped_depth_pos (vz p)) as Hd.
  rewrite !truediv_ok by lra; simpl.
  rewrite py_max2_Rmax; reflexivity.
Qed.

Lemma normalize_corners_ok ps :
  normalize_corners ps =
  Ret (map (fun p => vx p / Rmax (- vz p) 1e-4) ps,
       map (fun p => vy p / Rmax (- vz p) 1e-4) ps).
Proof.
  induction ps as [|p ps IH]; simpl; [reflexivity|].
  rewrite normalize_corner_ok, IH; reflexivity.
Qed.

(** * The driver functions *)

Section DriverFacts.

Variable inverted_safe : Matrix -> Matrix.

Lemma hit_test bpy cache :
  (Cache.frame cache =? frame_current (get_scene bpy))%Z
  && bool_decide (is_Some (Cache.data cache)) = true
  <-> cache_hit bpy cache.
Proof.
  unfold cache_hit, get_scene.
  rewrite andb_true_iff, Z.eqb_eq, bool_decide_eq_true; tauto.
Qed.

Lemma calculate_hit bpy cache :
  cache_hit bpy cache -> _calculate_squinch_data inverted_safe bpy cache = (Cache.data cache, cache).
Proof.
  intros H; apply hit_test in H.
  unfold _calculate_squinch_data; rewrite H; reflexivity.
Qed.

(** The three ways a call can end. *)
Lemma calculate_cases bpy cache :
  (cache_hit bpy cache /\ _calculate_squinch_data inverted_safe bpy cache = (Cache.data cache, cache))
  \/ (~ cache_hit bpy cache /\ _calculate_squinch_data inverted_safe bpy cache = (None, cache))
  \/ (~ cache_hit bpy cache /\ exists data,
        _calculate_squinch_data inverted_safe bpy cache =
        (Some data, Cache.mk (frame_current (scene bpy)) (Some data))).
Proof.
  destruct (decide (cache_hit bpy cache)) as [H|H].
  { left; split; auto using calculate_hit. }
  right.
  assert (Hb : (Cache.frame cache =? frame_current (get_scene bpy))%Z
               && bool_decide (is_Some (Cache.data cache)) = false).
  { apply not_true_is_false; rewrite hit_test; exact H. }
  unfold _calculate_squinch_data; rewrite Hb.
  destruct (falsy _ || falsy _); [left; auto|].
  destruct (_ ≫= find_object bpy) as [cam|]; [|left; auto].
  destruct (_ ≫= find_object bpy) as [plane|]; [|left; auto].
  destruct (all_present _) as [empties|]; [|left; auto].
  destruct (squinch_try _ _ _) as [data|e]; [|left; auto].
  right; split; eauto.
Qed.

(** What the [try] block computes for four corner empties. *)
Lemma squinch_try_ok cam e0 e1 e2 e3 cd :
  data cam = CameraData cd ->
  squinch_try inverted_safe cam [e0; e1; e2; e3] =
  let us := map (fun e => persp_u (corner_cam inverted_safe cam e)) [e1; e2; e3] in
  let u0 := persp_u (corner_cam inverted_safe cam e0) in
  let vs := map (fun e => persp_v (corner_cam inverted_safe cam e)) [e0; e1; e2; e3] in
  Ret (SquinchData.mk (max_of u0 us - min_of u0 us)
                      ((min_of u0 us + max_of u0 us) * 0.5)
                      (py_sum vs * 0.25)
                      (sensor_width cd) (lens cd)).
Proof.
  intros Hd; unfold squinch_try; cbv zeta.
  rewrite normalize_corners_ok, Hd; reflexivity.
Qed.

(** A miss with everything resolvable runs the [try] block. *)
Lemma calculate_miss bpy cache camera_name plane_name cam plane empties :
  ~ cache_hit bpy cache ->
  props (scene bpy) !! "squinch_camera_name" = Some camera_name ->
  props (scene bpy) !! "squinch_plane_name" = Some plane_name ->
  camera_name <> "" -> plane_name <> "" ->
  find_object bpy camera_name = Some cam ->
  find_object bpy plane_name = Some plane ->
  all_present (get_corner_empties bpy (name plane)) = Some empties ->
  _calculate_squinch_data inverted_safe bpy cache =
  match squinch_try inverted_safe cam empties with
  | Ret data => (Some data, Cache.mk (frame_current (scene bpy)) (Some data))
  | Raise _ => (None, cache)
  end.
Proof.
  intros Hm Hc Hp Hcn Hpn Hcam Hplane He.
  assert (Hb : (Cache.frame cache =? frame_current (get_scene bpy))%Z
               && bool_decide (is_Some (Cache.data cache)) = false).
  { apply not_true_is_false; rewrite hit_test; exact Hm. }
  unfold _calculate_squinch_data; rewrite Hb.
  unfold get_scene; rewrite Hc, Hp; unfold falsy.
  destruct (decide (camera_name = "")); [contradiction|].
  destruct (decide (plane_name = "")); [contradiction|].
  cbn [orb mbind option_bind]; rewrite Hcam, Hplane, He; reflexivity.
Qed.

End DriverFacts.

Lemma all_present_None {A : Type} (l : list (option A)) :
  In None l -> all_present l = None.
Proof.
  induction l as [|[a|] l IH]; simpl; intros H; try tauto.
  destruct H as [H|H]; [discriminate|]; rewrite IH; auto.
Qed.

Section DriverClaims.

Variable inverted_safe : Matrix -> Matrix.

Lemma calculate_failure bpy cache :
  ~ cache_hit bpy cache -> Failure inverted_safe bpy ->
  _calculate_squinch_data inverted_safe bpy cache = (None, cache).
Proof.
  intros Hm HF.
  assert (Hb : (Cache.frame cache =? frame_current (get_scene bpy))%Z
               && bool_decide (is_Some (Cache.data cache)) = false).
  { apply not_true_is_false; rewrite hit_test; exact Hm. }
  unfold _calculate_squinch_data; rewrite Hb; unfold get_scene.
  destruct HF as [H|H|cn H1 H2|pn H1 H2|pn plane H1 H2 H3
                  |cn pn cam plane es e H1 H2 H3 H4 H5 H6].
  - rewrite H; reflexivity.
  - rewrite H, orb_true_r; reflexivity.
  - rewrite H1; destruct (falsy (Some cn) || falsy _); [reflexivity|].
    cbn [mbind option_bind]; rewrite H2; reflexivity.
  - rewrite H1; destruct (falsy _ || falsy (Some pn)); [reflexivity|].
    cbn [mbind option_bind]; rewrite H2.
    destruct (_ ≫= find_object bpy); reflexivity.
  - rewrite H1; destruct (falsy _ || falsy (Some pn)); [reflexivity|].
    cbn [mbind option_bind]; rewrite H2.
    destruct (_ ≫= find_object bpy); [|reflexivity].
    rewrite all_present_None by assumption; reflexivity.
  - rewrite H1, H2; destruct (falsy (Some cn) || falsy (Some pn));
      [reflexivity|].
    cbn [mbind option_bind]; rewrite H3, H4, H5, H6; reflexivity.
Qed.

(** A recomputation does not look at what the cache held. *)
Lemma calculate_miss_independent bpy cache1 cache2 :
  ~ cache_hit bpy cache1 -> ~ cache_hit bpy cache2 ->
  fst (_calculate_squinch_data inverted_safe bpy cache1)
  = fst (_calculate_squinch_data inverted_safe bpy cache2).
Proof.
  intros H1 H2.
  assert (Hb : forall c, ~ cache_hit bpy c ->
             (Cache.frame c =? frame_current (get_scene bpy))%Z
             && bool_decide (is_Some (Cache.data c)) = false).
  { intros c Hc; apply not_true_is_false; rewrite hit_test; exact Hc. }
  unfold _calculate_squinch_data; rewrite !Hb by assumption.
  destruct (falsy _ || falsy _); [reflexivity|].
  destruct (_ ≫= find_object bpy); [|reflexivity].
  destruct (_ ≫= find_object bpy); [|reflexivity].
  destruct (all_present _); [|reflexivity].
  destruct (squinch_try _ _ _); reflexivity.
Qed.

(** A second call on the same scene returns what the first returned and
    leaves the cache as the first left it. *)
Lemma calculate_idempotent bpy cache :
  let r := _calculate_squinch_data inverted_safe bpy cache in
  _calculate_squinch_data inverted_safe bpy (snd r) = r.
Proof.
  cbv zeta.
  destruct (calculate_cases inverted_safe bpy cache)
    as [[Hh E]|[[Hm E]|[Hm [d E]]]]; rewrite E; simpl.
  - rewrite calculate_hit by assumption; reflexivity.
  - exact E.
  - apply calculate_hit; split; simpl; eauto.
Qed.

(** A camera object without camera data makes the [try] block raise. *)
Lemma squinch_try_no_camera_data cam e0 e1 e2 e3 :
  (forall cd, data cam <> CameraData cd) ->
  squinch_try inverted_safe cam [e0; e1; e2; e3] = Raise AttributeError.
Proof.
  intros H; unfold squinch_try; rewrite normalize_corners_ok.
  destruct (data cam) as [me|cd|]; [reflexivity| |reflexivity].
  exfalso; apply (H cd); reflexivity.
Qed.

(** C1: on a recomputation with the camera, the plane and the four corner
    empties resolved, each corner with camera-local coordinates (x, y, z)
    gets the depth d = max(-z, 1e-4) and the coordinates u = x/d, v = y/d;
    the data that is returned and cached has width_u = max(u) - min(u),
    center_u = (min(u) + max(u)) / 2 and center_v = the mean of the four
    v values. *)
Theorem calculate_projection
    (bpy : Bpy) (cache : Cache.t) (camera_name plane_name : string)
    (cam plane e0 e1 e2 e3 : Object ObData) (cd : Camera) :
  ~ cache_hit bpy cache ->
  props (scene bpy) !! "squinch_camera_name" = Some camera_name ->
  props (scene bpy) !! "squinch_plane_name" = Some plane_name ->
  camera_name <> "" -> plane_name <> "" ->
  find_object bpy camera_name = Some cam ->
  find_object bpy plane_name = Some plane ->
  get_corner_empties bpy (name plane) = [Some e0; Some e1; Some e2; Some e3] ->
  data cam = CameraData cd ->
  let local e := mat_mul_vec (inverted_safe (matrix_world cam))
                             (translation (matrix_world e)) in
  let d e := Rmax (- vz (local e)) 1e-4 in
  let u e := vx (local e) / d e in
  let v e := vy (local e) / d e in
  let max_u := Rmax4 (u e0) (u e1) (u e2) (u e3) in
  let min_u := Rmin4 (u e0) (u e1) (u e2) (u e3) in
  exists data,
    _calculate_squinch_data inverted_safe bpy cache
    = (Some data, Cache.mk (frame_current (scene bpy)) (Some data))
    /\ SquinchData.width_u data = max_u - min_u
    /\ SquinchData.center_u data = (min_u + max_u) / 2
    /\ SquinchData.center_v data = (v e0 + v e1 + v e2 + v e3) / 4
    /\ SquinchData.sensor_width data = sensor_width cd
    /\ SquinchData.current_lens data = lens cd.
Proof.
  intros Hm Hc Hp Hcn Hpn Hcam Hplane He Hd; cbv zeta.
  rewrite (calculate_miss inverted_safe bpy cache camera_name plane_name
             cam plane [e0; e1; e2; e3]); auto.
  2:{ rewrite He; reflexivity. }
  rewrite (squinch_try_ok inverted_safe cam e0 e1 e2 e3 cd Hd); cbv zeta.
  eexists; split; [reflexivity|].
  cbn [SquinchData.width_u SquinchData.center_u SquinchData.center_v
       SquinchData.sensor_width SquinchData.current_lens map].
  rewrite max_of_4, min_of_4, py_sum_4.
  unfold Rmax4, Rmin4, persp_u, persp_v, corner_cam.
  repeat split; try reflexivity; lra.
Qed.

(** What the three queries return, by what the calculation returned. *)
Lemma query_values bpy cache cache' result :
  _calculate_squinch_data inverted_safe bpy cache = (result, cache') ->
  let answers fov shift_x shift_y :=
    squinch_horizontal_fov inverted_safe bpy cache = (Ret fov, cache')
    /\ squinch_horizontal_shift inverted_safe bpy cache
       = (Ret shift_x, cache')
    /\ squinch_vertical_shift inverted_safe bpy cache
       = (Ret shift_y, cache') in
  match result with
  | Some data =>
      let w := SquinchData.width_u data in
      if Rle_dec (Rabs w) 1e-9 then answers 35 0 0
      else answers (Rmax 1 (SquinchData.sensor_width data / w))
                   (SquinchData.center_u data / w)
                   (SquinchData.center_v data / w)
  | None => answers 35 0 0
  end.
Proof.
  intros E; cbv beta zeta.
  unfold squinch_horizontal_fov, squinch_horizontal_shift,
    squinch_vertical_shift; rewrite E.
  replace 35.0 with 35 by lra; replace 0.0 with 0 by lra.
  destruct result as [data|]; [|auto].
  destruct (Rle_dec (Rabs (SquinchData.width_u data)) 1e-9) as [H|H].
  - rewrite (proj2 (leb_true _ _) H); auto.
  - assert (Hnz : SquinchData.width_u data <> 0).
    { intros H0; rewrite H0, Rabs_R0 in H; lra. }
    rewrite (proj2 (leb_false _ _)), !truediv_ok by (assumption || lra).
    simpl; rewrite py_max2_Rmax.
    replace 1.0 with 1 by lra; auto.
Qed.

(** C2: when there is data and |width_u| > 1e-9, the three queries return
    sensor_width / width_u clamped below at 1.0, center_u / width_u and
    center_v / width_u. *)
Theorem queries_divide_by_width
    (bpy : Bpy) (cache cache' : Cache.t) (data : SquinchData.t) :
  _calculate_squinch_data inverted_safe bpy cache = (Some data, cache') ->
  Rabs (SquinchData.width_u data) > 1e-9 ->
  squinch_horizontal_fov inverted_safe bpy cache
  = (Ret (Rmax 1 (SquinchData.sensor_width data / SquinchData.width_u data)),
     cache')
  /\ squinch_horizontal_shift inverted_safe bpy cache
     = (Ret (SquinchData.center_u data / SquinchData.width_u data), cache')
  /\ squinch_vertical_shift inverted_safe bpy cache
     = (Ret (SquinchData.center_v data / SquinchData.width_u data), cache').
Proof.
  intros E Hw; pose proof (query_values bpy cache cache' _ E) as H.
  cbv beta zeta iota in H.
  destruct (Rle_dec (Rabs (SquinchData.width_u data)) 1e-9); [lra|exact H].
Qed.

(** C3: when there is data and |width_u| <= 1e-9, the three queries return
    35.0, 0.0 and 0.0: the result is a plain value, no division by the
    width is attempted. *)
Theorem queries_degenerate_width
    (bpy : Bpy) (cache cache' : Cache.t) (data : SquinchData.t) :
  _calculate_squinch_data inverted_safe bpy cache = (Some data, cache') ->
  Rabs (SquinchData.width_u data) <= 1e-9 ->
  squinch_horizontal_fov inverted_safe bpy cache = (Ret 35, cache')
  /\ squinch_horizontal_shift inverted_safe bpy cache = (Ret 0, cache')
  /\ squinch_vertical_shift inverted_safe bpy cache = (Ret 0, cache').
Proof.
  intros E Hw; pose proof (query_values bpy cache cache' _ E) as H.
  cbv beta zeta iota in H.
  destruct (Rle_dec (Rabs (SquinchData.width_u data)) 1e-9); [exact H|lra].
Qed.

Lemma queries_without_data bpy cache cache' :
  _calculate_squinch_data inverted_safe bpy cache = (None, cache') ->
  squinch_horizontal_fov inverted_safe bpy cache = (Ret 35, cache')
  /\ squinch_horizontal_shift inverted_safe bpy cache = (Ret 0, cache')
  /\ squinch_vertical_shift inverted_safe bpy cache = (Ret 0, cache').
Proof. intros E; exact (query_values bpy cache cache' _ E). Qed.

Lemma queries_return bpy cache :
  (exists r c, squinch_horizontal_fov inverted_safe bpy cache = (Ret r, c))
  /\ (exists r c,
        squinch_horizontal_shift inverted_safe bpy cache = (Ret r, c))
  /\ (exists r c,
        squinch_vertical_shift inverted_safe bpy cache = (Ret r, c)).
Proof.
  destruct (_calculate_squinch_data inverted_safe bpy cache)
    as [result c] eqn:E.
  pose proof (query_values bpy cache c result E) as H; cbv beta zeta iota in H.
  destruct result as [data|];
    [destruct (Rle_dec (Rabs (SquinchData.width_u data)) 1e-9)|];
    destruct H as (-> & -> & ->); eauto 10.
Qed.

(** C8: each of the three queries returns a float and never raises.  On a
    recomputation that fails (a configuration key unset, the camera, the
    plane or a corner empty unresolvable, or an exception in the geometry
    code) they return 35.0, 0.0 and 0.0. *)
Theorem queries_never_raise (bpy : Bpy) (cache : Cache.t) :
  (exists r c, squinch_horizontal_fov inverted_safe bpy cache = (Ret r, c))
  /\ (exists r c,
        squinch_horizontal_shift inverted_safe bpy cache = (Ret r, c))
  /\ (exists r c,
        squinch_vertical_shift inverted_safe bpy cache = (Ret r, c))
  /\ (~ cache_hit bpy cache -> Failure inverted_safe bpy ->
      squinch_horizontal_fov inverted_safe bpy cache = (Ret 35, cache)
      /\ squinch_horizontal_shift inverted_safe bpy cache = (Ret 0, cache)
      /\ squinch_vertical_shift inverted_safe bpy cache = (Ret 0, cache)).
Proof.
  destruct (queries_return bpy cache) as (Hf & Hh & Hv).
  repeat split; auto;
    apply queries_without_data, calculate_failure; assumption.
Qed.

(** C10: a call that returns None leaves the frame key and the data of the
    cache as they were; and once a call has returned data, every later call
    at the same frame returns that data and the same cache, whatever has
    become of the objects and properties of the scene. *)
Theorem failure_keeps_cache (bpy : Bpy) (cache : Cache.t) :
  (forall cache',
      _calculate_squinch_data inverted_safe bpy cache = (None, cache') ->
      cache' = cache)
  /\ (forall data cache',
        _calculate_squinch_data inverted_safe bpy cache = (Some data, cache') ->
        forall bpy',
          frame_current (scene bpy') = frame_current (scene bpy) ->
          _calculate_squinch_data inverted_safe bpy' cache'
          = (Some data, cache')).
Proof.
  split.
  - intros c' E.
    destruct (calculate_cases inverted_safe bpy cache)
      as [[[_ [d Hd]] E']|[[_ E']|[_ [d E']]]]; rewrite E' in E.
    + rewrite Hd in E; discriminate.
    + injection E as <-; reflexivity.
    + discriminate.
  - intros d c' E bpy' Hf.
    assert (Hh : cache_hit bpy' c' /\ Cache.data c' = Some d).
    { destruct (calculate_cases inverted_safe bpy cache)
        as [[[Hfr Hs] E']|[[_ E']|[_ [d' E']]]]; rewrite E' in E.
      - injection E as Hd <-; unfold cache_hit; rewrite Hf, Hd; eauto.
      - discriminate.
      - injection E as -> <-; unfold cache_hit; simpl; rewrite Hf; eauto. }
    destruct Hh as [Hh Hd]; rewrite calculate_hit, Hd by assumption.
    reflexivity.
Qed.

End DriverClaims.

(** * Render aspect *)

Lemma even_up_even n : Z.even (even_up n) = true.
Proof.
  unfold even_up; rewrite Zmod_even.
  destruct (Z.even n) eqn:E; simpl; [exact E|].
  rewrite Z.even_add, E; reflexivity.
Qed.

Lemma even_up_of_even n : Z.even n = true -> even_up n = n.
Proof. intros E; unfold even_up; rewrite Zmod_even, E; reflexivity. Qed.

Lemma even_up_bounds n : (n <= even_up n <= n + 1)%Z.
Proof. unfold even_up; destruct (negb _); lia. Qed.

Lemma Int_part_IZR z : Int_part (IZR z) = z.
Proof. symmetry; apply Int_part_spec; lra. Qed.

Lemma py_round_IZR z : py_round (IZR z) = z.
Proof.
  unfold py_round; rewrite Int_part_IZR.
  replace (IZR z - IZR z) with 0 by ring.
  rewrite (proj2 (ltb_true 0 (1 / 2))) by lra; reflexivity.
Qed.

Lemma py_round_half_even :
  py_round 0.5 = 0%Z /\ py_round 1.5 = 2%Z /\ py_round 2.5 = 2%Z
  /\ py_round 2.4 = 2%Z /\ py_round 2.6 = 3%Z.
Proof.
  unfold py_round.
  rewrite <- (Int_part_spec 0.5 0), <- (Int_part_spec 1.5 1),
    <- (Int_part_spec 2.5 2), <- (Int_part_spec 2.4 2),
    <- (Int_part_spec 2.6 2) by lra.
  repeat match goal with
         | |- context [ltb ?a ?b] =>
             first [ rewrite (proj2 (ltb_true a b)) by lra
                   | rewrite (proj2 (ltb_false a b)) by lra ]
         end.
  auto.
Qed.


(** The basis and the extents of the 2 x 1 rectangle. *)

Lemma length_axis_z c : 0 <= c -> length (vec 0 0 c) = c.
Proof.
  intros Hc; unfold length, dot; simpl.
  replace (0 * 0 + 0 * 0 + c * c) with (c * c) by ring.
  apply sqrt_square; exact Hc.
Qed.

Lemma normalized_axis_z c : 0 < c -> normalized (vec 0 0 c) = unit_z.
Proof.
  intros Hc; rewrite normalized_pos; rewrite length_axis_z by lra; auto.
  apply vec_eq; unfold vdiv; simpl; field; lra.
Qed.

Lemma build_basis_unit_z : build_basis unit_z = (vec 1 0 0, unit_y).
Proof.
  unfold build_basis.
  rewrite unit_z_unit, Rabs_R1, (proj2 (ltb_false 1 0.999)) by lra.
  replace (cross unit_y unit_z) with (vec 1 0 0)
    by (apply vec_eq; unfold cross; simpl; ring).
  rewrite (normalized_of_unit (vec 1 0 0)) by (unfold dot; simpl; ring).
  replace (cross unit_z (vec 1 0 0)) with unit_y
    by (apply vec_eq; unfold cross; simpl; ring).
  rewrite (normalized_of_unit unit_y) by apply unit_y_unit.
  reflexivity.
Qed.

Lemma mat_mul_vec_identity v : mat_mul_vec identity4 v = v.
Proof.
  destruct v; apply vec_eq; unfold mat_mul_vec, mat3_mul_vec, dot; simpl; ring.
Qed.

Lemma rect_plane_vertices :
  _mesh_world_vertices rect_plane
  = [vec 0 0 0; vec 2 0 0; vec 2 1 0; vec 0 1 0].
Proof.
  unfold _mesh_world_vertices.
  cbn [map data vertices rect_plane matrix_world].
  rewrite !mat_mul_vec_identity; reflexivity.
Qed.

Lemma rect_plane_normal : polygons_normal rect_plane = Some unit_z.
Proof.
  unfold polygons_normal; simpl.
  set (acc := vadd _ _).
  replace acc with (vec 0 0 2)
    by (apply vec_eq;
        unfold acc, vadd, vscale, mat3_mul_vec, dot, vzero, unit_z, identity3;
        simpl; ring).
  rewrite length_axis_z, (proj2 (ltb_true 1e-12 2)) by lra.
  rewrite normalized_axis_z by lra; reflexivity.
Qed.

Lemma rect_plane_basis :
  _compute_plane_basis rect_plane
  = (vdiv (vec 4 2 0) 4, vec 1 0 0, unit_y, unit_z).
Proof.
  unfold _compute_plane_basis.
  rewrite rect_plane_vertices, rect_plane_normal, build_basis_unit_z.
  f_equal; f_equal; f_equal.
  apply vec_eq; unfold vdiv; simpl; field.
Qed.

Lemma rect_plane_width_height : width_height_from_corners rect_plane = (2, 1).
Proof.
  unfold width_height_from_corners.
  rewrite rect_plane_basis, rect_plane_vertices; cbn [map].
  rewrite !max_of_4, !min_of_4.
  unfold dot, unit_y; simpl.
  f_equal; unfold Rmax, Rmin, Rabs;
    repeat (destruct (Rle_dec _ _)); destruct (Rcase_abs _); lra.
Qed.


(** * The example scenes *)

Lemma corner_cam_translation n1 loc d1 p1 n2 c d2 p2 :
  corner_cam inverted_translation (object_at n1 loc d1 p1)
             (object_at n2 c d2 p2)
  = vsub c loc.
Proof.
  apply vec_eq; unfold corner_cam, mat_mul_vec, mat3_mul_vec, dot; simpl; ring.
Qed.

Lemma demo_calculate frame subframe cam_loc c0 c1 c2 c3 cache :
  ~ cache_hit (demo_bpy frame subframe cam_loc c0 c1 c2 c3) cache ->
  _calculate_squinch_data inverted_translation
    (demo_bpy frame subframe cam_loc c0 c1 c2 c3) cache
  = let u c := persp_u (vsub c cam_loc) in
    let v c := persp_v (vsub c cam_loc) in
    let data :=
      SquinchData.mk
        (Rmax4 (u c0) (u c1) (u c2) (u c3) - Rmin4 (u c0) (u c1) (u c2) (u c3))
        ((Rmin4 (u c0) (u c1) (u c2) (u c3)
          + Rmax4 (u c0) (u c1) (u c2) (u c3)) * 0.5)
        ((v c0 + v c1 + v c2 + v c3) * 0.25) 36 50 in
    (Some data, Cache.mk frame (Some data)).
Proof.
  intros Hm.
  erewrite calculate_miss; eauto; try reflexivity; try discriminate.
  erewrite squinch_try_ok by reflexivity; cbv zeta.
  cbn [map]; rewrite max_of_4, min_of_4, py_sum_4, !corner_cam_translation.
  reflexivity.
Qed.

Lemma data_eq w w' cu cu' cv cv' s l :
  w = w' -> cu = cu' -> cv = cv' ->
  SquinchData.mk w cu cv s l = SquinchData.mk w' cu' cv' s l.
Proof. intros -> -> ->; reflexivity. Qed.

(** The square seen from a camera on its axis, at distance [dist]. *)
Lemma square_calculate frame subframe z0 dist cache :
  dist = 10 + z0 -> 1e-4 <= dist ->
  ~ cache_hit (square_scene frame subframe (vec 0 0 z0)) cache ->
  _calculate_squinch_data inverted_translation
    (square_scene frame subframe (vec 0 0 z0)) cache
  = (Some (square_data dist), Cache.mk frame (Some (square_data dist))).
Proof.
  intros Hd Hpos Hm; unfold square_scene.
  rewrite demo_calculate by exact Hm; cbv zeta.
  unfold persp_u, persp_v, vsub; cbn [vx vy vz].
  replace (Rmax (- (-10 - z0)) 1e-4) with dist
    by (rewrite Rmax_left; lra).
  assert (HX : 0 < / dist) by (apply Rinv_0_lt_compat; lra).
  unfold Rdiv, square_data; set (X := / dist) in *.
  match goal with
  | |- (Some ?d, _) = _ =>
      replace d with (SquinchData.mk (2 * X) 0 0 36 50); [reflexivity|]
  end.
  apply data_eq; unfold Rmax4, Rmin4, Rmax, Rmin;
    repeat (destruct (Rle_dec _ _)); lra.
Qed.

Lemma point_calculate cache :
  ~ cache_hit point_scene cache ->
  _calculate_squinch_data inverted_translation point_scene cache
  = (Some (SquinchData.mk 0 0 0 36 50),
     Cache.mk 1 (Some (SquinchData.mk 0 0 0 36 50))).
Proof.
  intros Hm; unfold point_scene.
  rewrite demo_calculate by exact Hm; cbv zeta.
  unfold persp_u, persp_v, vsub, vzero; cbn [vx vy vz].
  unfold Rdiv; set (X := / _).
  match goal with
  | |- (Some ?d, _) = _ =>
      replace d with (SquinchData.mk 0 0 0 36 50); [reflexivity|]
  end.
  apply data_eq; unfold Rmax4, Rmin4, Rmax, Rmin;
    repeat (destruct (Rle_dec _ _)); lra.
Qed.

Lemma square_width_bounds dist :
  1 <= dist <= 1000 ->
  ~ Rabs (2 / dist) <= 1e-9 /\ 36 / (2 / dist) = 18 * dist.
Proof.
  intros [Hlo Hhi].
  assert (H1 : / 1000 <= / dist) by (apply Rinv_le_contravar; lra).
  split; [|field; lra].
  unfold Rdiv; rewrite Rabs_pos_eq; lra.
Qed.

(** The focal length for the square: 36 / (2 / dist) = 18 dist. *)
Lemma square_fov frame subframe z0 dist cache :
  dist = 10 + z0 -> 1 <= dist <= 1000 ->
  ~ cache_hit (square_scene frame subframe (vec 0 0 z0)) cache ->
  squinch_horizontal_fov inverted_translation
    (square_scene frame subframe (vec 0 0 z0)) cache
  = (Ret (18 * dist), Cache.mk frame (Some (square_data dist))).
Proof.
  intros Hd Hpos Hm.
  pose proof (query_values inverted_translation _ _ _ _
                (square_calculate frame subframe z0 dist cache Hd
                   ltac:(lra) Hm)) as H.
  cbv beta zeta iota in H.
  cbn [square_data SquinchData.width_u SquinchData.sensor_width] in H.
  destruct (square_width_bounds dist Hpos) as [Hw Hq].
  destruct (Rle_dec (Rabs (2 / dist)) 1e-9) as [Hl|_]; [contradiction|].
  destruct H as (H & _); rewrite H, Hq; do 2 f_equal.
  apply Rmax_right; lra.
Qed.

(** A hit answers from the cached data, here that of the square. *)
Lemma square_fov_cached bpy frame dist :
  1 <= dist <= 1000 -> frame_current (scene bpy) = frame ->
  squinch_horizontal_fov inverted_translation bpy
    (Cache.mk frame (Some (square_data dist)))
  = (Ret (18 * dist), Cache.mk frame (Some (square_data dist))).
Proof.
  intros Hpos Hf.
  assert (Hh : cache_hit bpy (Cache.mk frame (Some (square_data dist))))
    by (split; simpl; eauto).
  pose proof (query_values inverted_translation _ _ _ _
                (calculate_hit inverted_translation _ _ Hh)) as H.
  cbv beta zeta iota in H.
  cbn [Cache.data square_data SquinchData.width_u
       SquinchData.sensor_width] in H.
  destruct (square_width_bounds dist Hpos) as [Hw Hq].
  destruct (Rle_dec (Rabs (2 / dist)) 1e-9) as [Hl|_]; [contradiction|].
  destruct H as (H & _); rewrite H, Hq; do 2 f_equal.
  apply Rmax_right; lra.
Qed.

(** [center_v] is the mean of the four v values, which is not the midpoint
    of their extremes: corners with v = 0, 0, 0, 4/10 give 1/10, not 2/10. *)
Lemma center_v_is_mean_not_midpoint :
  exists data,
    fst (_calculate_squinch_data inverted_translation
           (demo_bpy 1 0 vzero (vec (-1) 0 (-10)) (vec 1 0 (-10))
                     (vec (-1) 0 (-10)) (vec 1 4 (-10)))
           _squinch_cache) = Some data
    /\ SquinchData.center_v data = 1 / 10
    /\ SquinchData.center_v data <> (0 + 4 / 10) / 2.
Proof.
  rewrite demo_calculate by (intros [_ [d Hd]]; discriminate Hd).
  cbv zeta; eexists; split; [reflexivity|].
  cbn [SquinchData.center_v]; unfold persp_v, vsub, vzero; cbn [vx vy vz].
  replace (Rmax (- (-10 - 0)) 1e-4) with 10 by (rewrite Rmax_left; lra).
  split; lra.
Qed.

Lemma initial_cache_miss bpy : ~ cache_hit bpy _squinch_cache.
Proof. intros [_ [d Hd]]; discriminate Hd. Qed.

(** * Closed instances of the claims *)




Lemma calculate_projection_witness :
  exists data,
    _calculate_squinch_data inverted_translation (square_scene 1 0 vzero)
      _squinch_cache
    = (Some data, Cache.mk 1 (Some data))
    /\ SquinchData.sensor_width data = 36.
Proof.
  edestruct (calculate_projection inverted_translation
               (square_scene 1 0 vzero) _squinch_cache "Camera" "Plane")
    as (d & E & _ & _ & _ & Hs & _).
  - apply initial_cache_miss.
  - reflexivity.
  - reflexivity.
  - discriminate.
  - discriminate.
  - reflexivity.
  - reflexivity.
  - reflexivity.
  - reflexivity.
  - exists d; split; [exact E | exact Hs].
Defined.

Lemma queries_divide_by_width_witness :
  squinch_horizontal_fov inverted_translation (square_scene 1 0 vzero)
    _squinch_cache
  = (Ret 180, Cache.mk 1 (Some (square_data 10)))
  /\ squinch_horizontal_shift inverted_translation (square_scene 1 0 vzero)
       _squinch_cache
     = (Ret 0, Cache.mk 1 (Some (square_data 10)))
  /\ squinch_vertical_shift inverted_translation (square_scene 1 0 vzero)
       _squinch_cache
     = (Ret 0, Cache.mk 1 (Some (square_data 10))).
Proof.
  destruct (queries_divide_by_width inverted_translation
              (square_scene 1 0 vzero) _squinch_cache
              (Cache.mk 1 (Some (square_data 10))) (square_data 10))
    as (Hf & Hh & Hv).
  - apply square_calculate; [lra | lra | apply initial_cache_miss].
  - simpl; unfold Rabs; destruct (Rcase_abs _); lra.
  - rewrite Hf, Hh, Hv; simpl.
    replace (36 / (2 / 10)) with 180 by lra.
    replace (0 / (2 / 10)) with 0 by lra.
    rewrite Rmax_right by lra; auto.
Defined.

Lemma queries_degenerate_width_witness :
  squinch_horizontal_fov inverted_translation point_scene _squinch_cache
  = (Ret 35, Cache.mk 1 (Some (SquinchData.mk 0 0 0 36 50)))
  /\ squinch_horizontal_shift inverted_translation point_scene _squinch_cache
     = (Ret 0, Cache.mk 1 (Some (SquinchData.mk 0 0 0 36 50)))
  /\ squinch_vertical_shift inverted_translation point_scene _squinch_cache
     = (Ret 0, Cache.mk 1 (Some (SquinchData.mk 0 0 0 36 50))).
Proof.
  apply (queries_degenerate_width inverted_translation point_scene
           _squinch_cache _ (SquinchData.mk 0 0 0 36 50)).
  - apply point_calculate, initial_cache_miss.
  - simpl; rewrite Rabs_R0; lra.
Defined.

Lemma queries_never_raise_witness :
  squinch_horizontal_fov inverted_translation bare_scene _squinch_cache
  = (Ret 35, _squinch_cache)
  /\ squinch_horizontal_shift inverted_translation bare_scene _squinch_cache
     = (Ret 0, _squinch_cache)
  /\ squinch_vertical_shift inverted_translation bare_scene _squinch_cache
     = (Ret 0, _squinch_cache).
Proof.
  destruct (queries_never_raise inverted_translation bare_scene _squinch_cache)
    as (_ & _ & _ & H).
  apply H.
  - apply initial_cache_miss.
  - apply unset_camera_name; reflexivity.
Defined.

(** The square is cached at frame 1; then every object and property of the
    scene is gone, and the cached data is still what a call returns. *)
Lemma failure_keeps_cache_witness :
  _calculate_squinch_data inverted_translation bare_scene
    (Cache.mk 1 (Some (square_data 10)))
  = (Some (square_data 10), Cache.mk 1 (Some (square_data 10))).
Proof.
  destruct (failure_keeps_cache inverted_translation (square_scene 1 0 vzero)
              _squinch_cache) as [_ H].
  apply (H (square_data 10) (Cache.mk 1 (Some (square_data 10)))).
  - apply square_calculate; [lra | lra | apply initial_cache_miss].
  - reflexivity.
Defined.

(** * The cache key is the frame alone *)

(** C4: the cache is filled at frame 1, subframe 0, with the camera 10 away
    from the square.  At frame 1, subframe 0.5, with the camera 20 away, a
    query returns the focal length of subframe 0 (180), where a
    recomputation gives 360: the instant has advanced and nothing was
    recomputed. *)
Theorem subframe_query_is_stale :
  let at_0 := square_scene 1 0 vzero in
  let at_half := square_scene 1 0.5 (vec 0 0 10) in
  let first := squinch_horizontal_fov inverted_translation at_0 _squinch_cache in
  (frame_current (scene at_0), frame_subframe (scene at_0))
  <> (frame_current (scene at_half), frame_subframe (scene at_half))
  /\ fst first = Ret 180
  /\ squinch_horizontal_fov inverted_translation at_half (snd first)
     = (Ret 180, snd first)
  /\ fst (squinch_horizontal_fov inverted_translation at_half _squinch_cache)
     = Ret 360.
Proof.
  cbv zeta.
  rewrite (square_fov 1 0 0 10)
    by (try lra; apply initial_cache_miss).
  cbn [fst snd].
  rewrite (square_fov_cached _ 1 10) by (lra || reflexivity).
  rewrite (square_fov 1 0.5 10 20)
    by (try lra; apply initial_cache_miss).
  cbn [fst].
  repeat apply conj; try (do 2 f_equal; lra); try (f_equal; lra).
  simpl; intros H; injection H as H; lra.
Qed.

(** * The rounded arithmetic: where exactness fails *)



(** * The extents of a list *)

Lemma min_of_spec x l :
  (forall y, In y (x :: l) -> min_of x l <= y) /\ In (min_of x l) (x :: l).
Proof.
  unfold min_of; revert x; induction l as [|a l IH]; intros x; simpl.
  - split; [intros y [->|[]]; lra | auto].
  - destruct (IH (py_min2 x a)) as [Hle Hin]; simpl in Hle, Hin.
    assert (Hm : py_min2 x a <= x /\ py_min2 x a <= a
                 /\ (py_min2 x a = x \/ py_min2 x a = a)).
    { rewrite py_min2_Rmin; unfold Rmin; destruct (Rle_dec x a);
        repeat split; auto; lra. }
    destruct Hm as (Hx & Ha & Hc).
    pose proof (Hle (py_min2 x a) (or_introl eq_refl)) as H0.
    split.
    + intros y [<-|[<-|Hy]]; [lra | lra | apply Hle; auto].
    + destruct Hin as [Hin|Hin]; [|auto].
      rewrite <- Hin; destruct Hc as [->| ->]; auto.
Qed.

Lemma max_of_spec x l :
  (forall y, In y (x :: l) -> y <= max_of x l) /\ In (max_of x l) (x :: l).
Proof.
  unfold max_of; revert x; induction l as [|a l IH]; intros x; simpl.
  - split; [intros y [->|[]]; lra | auto].
  - destruct (IH (py_max2 x a)) as [Hle Hin]; simpl in Hle, Hin.
    assert (Hm : x <= py_max2 x a /\ a <= py_max2 x a
                 /\ (py_max2 x a = x \/ py_max2 x a = a)).
    { rewrite py_max2_Rmax; unfold Rmax; destruct (Rle_dec x a);
        repeat split; auto; lra. }
    destruct Hm as (Hx & Ha & Hc).
    pose proof (Hle (py_max2 x a) (or_introl eq_refl)) as H0.
    split.
    + intros y [<-|[<-|Hy]]; [lra | lra | apply Hle; auto].
    + destruct Hin as [Hin|Hin]; [|auto].
      rewrite <- Hin; destruct Hc as [->| ->]; auto.
Qed.

Lemma extents_spec xs :
  xs <> [] ->
  (forall x, In x xs -> fst (extents xs) <= x <= snd (extents xs))
  /\ In (fst (extents xs)) xs /\ In (snd (extents xs)) xs.
Proof.
  destruct xs as [|x l]; [congruence|]; intros _; simpl.
  destruct (min_of_spec x l) as [Hmin Hmin'].
  destruct (max_of_spec x l) as [Hmax Hmax'].
  repeat split; auto.
Qed.


(** * More on the basis: which way the axes point *)

Lemma dot_vneg_l a b : dot (vneg a) b = - dot a b.
Proof. unfold dot, vneg; simpl; ring. Qed.

Lemma normalized_vneg a : normalized (vneg a) = vneg (normalized a).
Proof.
  unfold normalized; rewrite length_vneg.
  destruct (ltb 0 (length a)); apply vec_eq; unfold vneg, vdiv, Rdiv; simpl;
    ring.
Qed.

Lemma cross_vneg_r a b : cross a (vneg b) = vneg (cross a b).
Proof. apply vec_eq; unfold cross, vneg; simpl; ring. Qed.

Lemma cross_vneg_vneg a b : cross (vneg a) (vneg b) = cross a b.
Proof. apply vec_eq; unfold cross, vneg; simpl; ring. Qed.

(** Negating the normal negates [axis_u] and keeps [axis_v]. *)
Lemma build_basis_vneg n :
  build_basis (vneg n) = (vneg (fst (build_basis n)), snd (build_basis n)).
Proof.
  unfold build_basis; cbn [fst snd].
  rewrite dot_vneg_l, Rabs_Ropp, cross_vneg_r, normalized_vneg,
    cross_vneg_vneg.
  reflexivity.
Qed.

(** Away from the vertical, [axis_u] is horizontal and [axis_v] points up;
    near the vertical the same holds with world Y in the place of world Z. *)
Lemma build_basis_upright n :
  dot n n = 1 ->
  let '(u, v) := build_basis n in
  (Rabs (vz n) < 0.999 -> vz u = 0 /\ 0 < vz v)
  /\ (0.999 <= Rabs (vz n) -> vy u = 0 /\ 0 < vy v).
Proof.
  intros Hn; unfold build_basis.
  pose proof (up_ref_cross_pos n Hn) as Hpos; cbv zeta in Hpos.
  rewrite dot_unit_z in *.
  set (w := cross _ n) in *.
  assert (Huu : dot (normalized w) (normalized w) = 1)
    by (apply normalized_unit; exact Hpos).
  assert (Hun : dot n (normalized w) = 0).
  { rewrite dot_comm; apply dot_normalized_l; apply dot_cross_r. }
  assert (Hc : dot (cross n (normalized w)) (cross n (normalized w)) = 1).
  { rewrite dot_cross_cross, Hn, Huu, Hun; ring. }
  rewrite (normalized_of_unit _ Hc), normalized_pos by exact Hpos.
  assert (Hl : 0 < / length w) by (apply Rinv_0_lt_compat; exact Hpos).
  pose proof (length_sqr w) as Hsq.
  assert (Hww : 0 < dot w w) by (rewrite <- Hsq; nra).
  split; intros Hz.
  - apply ltb_true in Hz; subst w; rewrite Hz in *.
    unfold cross, vdiv, unit_z, Rdiv, dot in *; simpl in *.
    split; [ring|].
    match goal with |- 0 < ?e =>
      replace e with
        (((0 * vz n - 1 * vy n) * (0 * vz n - 1 * vy n)
          + (1 * vx n - 0 * vz n) * (1 * vx n - 0 * vz n)
          + (0 * vy n - 0 * vx n) * (0 * vy n - 0 * vx n)) * / length
             {| vx := 0 * vz n - 1 * vy n; vy := 1 * vx n - 0 * vz n;
                vz := 0 * vy n - 0 * vx n |}) by ring end.
    apply Rmult_lt_0_compat; assumption.
  - apply ltb_false in Hz; subst w; rewrite Hz in *.
    unfold cross, vdiv, unit_y, Rdiv, dot in *; simpl in *.
    split; [ring|].
    match goal with |- 0 < ?e =>
      replace e with
        (((1 * vz n - 0 * vy n) * (1 * vz n - 0 * vy n)
          + (0 * vx n - 0 * vz n) * (0 * vx n - 0 * vz n)
          + (0 * vy n - 1 * vx n) * (0 * vy n - 1 * vx n)) * / length
             {| vx := 1 * vz n - 0 * vy n; vy := 0 * vx n - 0 * vz n;
                vz := 0 * vy n - 1 * vx n |}) by ring end.
    apply Rmult_lt_0_compat; assumption.
Qed.

Lemma plane_basis_built plane :
  let '(_, u, v, n) := _compute_plane_basis plane in (u, v) = build_basis n.
Proof.
  unfold _compute_plane_basis.
  destruct (_mesh_world_vertices plane) as [|p0 ps]; cbv zeta;
    match goal with
    | |- context [build_basis ?n] => destruct (build_basis n) eqn:E
    end; simpl; rewrite ?E; reflexivity.
Qed.

Lemma extents_ordered xs : xs <> [] -> fst (extents xs) <= snd (extents xs).
Proof.
  intros H; destruct (extents_spec xs H) as (B & L & _).
  apply (B _ L).
Qed.

(** X4: for a plane with vertices that is not within the 0.999 cone of the
    vertical, the labels mean what they say in world space: the bottom and
    the top side of the corner rectangle are horizontal, and the top side
    is not lower than the bottom side. *)
Theorem top_corners_above_bottom (plane : Object Mesh) :
  _mesh_world_vertices plane <> [] ->
  let '(_, _, _, n) := _compute_plane_basis plane in
  Rabs (vz n) < 0.999 ->
  let c := get_plane_corner_world_positions plane in
  vz (bottom_left c) = vz (bottom_right c)
  /\ vz (top_left c) = vz (top_right c)
  /\ vz (bottom_left c) <= vz (top_left c)
  /\ vz (bottom_right c) <= vz (top_right c).
Proof.
  intros Hne; pose proof (plane_basis_exact plane Hne) as H.
  pose proof (plane_basis_built plane) as Hb.
  unfold get_plane_corner_world_positions.
  destruct (_compute_plane_basis plane) as [[[o u] v] n].
  destruct H as (_ & _ & Hn & _).
  pose proof (build_basis_upright n Hn) as Hup; rewrite <- Hb in Hup.
  intros Hz; destruct Hup as [Hup _]; destruct (Hup Hz) as [Hu Hv].
  cbv zeta.
  assert (Hvs : map (fun p => dot p v) (_mesh_world_vertices plane) <> [])
    by (destruct (_mesh_world_vertices plane); [congruence | discriminate]).
  pose proof (extents_ordered _ Hvs) as Ho.
  destruct (extents (map (fun p => dot p u) _)) as [min_u max_u].
  destruct (extents (map (fun p => dot p v) _)) as [min_v max_v].
  cbn [fst snd bottom_left bottom_right top_left top_right pos] in *.
  unfold pos, vadd, vscale; simpl; rewrite Hu.
  repeat split; try ring; nra.
Qed.

(** X5: when the camera is behind the plane ([side < 0]), the frame written
    to the orientation empty is the plane basis turned half a turn about
    [axis_v]: its columns are -axis_u, axis_v and -normal. *)
Theorem orientation_flip_is_half_turn
    (inverted_safe : Matrix -> Matrix)
    (bpy : Bpy) (plane : Object Mesh) (camera : Object ObData) :
  let obj := fst (ensure_orientation_empty inverted_safe bpy plane (Some camera)) in
  let m := to_3x3 (matrix_world obj) in
  let '(o, u, v, n) := _compute_plane_basis plane in
  dot (vsub (translation (matrix_world camera)) o) n < 0 ->
  col0 m = vneg u /\ col1 m = v /\ col2 m = vneg n.
Proof.
  pose proof (plane_basis_built plane) as Hb.
  unfold ensure_orientation_empty.
  destruct (_compute_plane_basis plane) as [[[o u] v] n].
  cbv zeta; intros Hs.
  rewrite (proj2 (ltb_true _ _) Hs), build_basis_vneg, <- Hb.
  cbn [fst snd]; rewrite translation_mul_to_4x4; simpl.
  apply cols_of_basis.
Qed.

Lemma find_all_false {A : Type} (f : A -> bool) (l : list A) :
  (forall x, In x l -> f x = false) -> find f l = None.
Proof.
  intros H; destruct (find f l) as [x|] eqn:E; [|reflexivity].
  apply find_some in E as [Hin Hf]; rewrite (H x Hin) in Hf; discriminate.
Qed.

Lemma length_vzero : length (vec 0 0 0) = 0.
Proof.
  unfold length, dot; simpl.
  replace (0 * 0 + 0 * 0 + 0 * 0) with 0 by ring; apply sqrt_0.
Qed.

(** X7: a mesh without faces whose vertices all coincide (a single vertex
    included) gets the world frame as its basis: axis_u = X, axis_v = Y,
    normal = Z. *)
Theorem coincident_vertices_give_world_axes
    (plane : Object Mesh) (p0 : Vector) (ps : list Vector) :
  polygons (data plane) = [] ->
  _mesh_world_vertices plane = p0 :: ps ->
  (forall p, In p ps -> p = p0) ->
  let '(_, u, v, n) := _compute_plane_basis plane in
  u = vec 1 0 0 /\ v = unit_y /\ n = unit_z.
Proof.
  intros Hp Hv Hall; unfold _compute_plane_basis, polygons_normal.
  rewrite Hv, Hp.
  assert (Hn : verts_normal p0 (p0 :: ps) = unit_z).
  { unfold verts_normal; cbn [drop]; rewrite drop_0.
    rewrite find_all_false; [reflexivity|].
    intros p Hin; apply ltb_false; rewrite (Hall p Hin).
    replace (vsub p0 p0) with (vec 0 0 0)
      by (apply vec_eq; unfold vsub; simpl; ring).
    rewrite length_vzero; lra. }
  rewrite Hn, build_basis_unit_z; auto.
Qed.

(** Closed instances. *)

Lemma rect_plane_has_vertices : _mesh_world_vertices rect_plane <> [].
Proof. rewrite rect_plane_vertices; discriminate. Qed.

Lemma top_corners_above_bottom_witness :
  let c := get_plane_corner_world_positions
             {| name := "Wall"; matrix_world := identity4;
                data := {| vertices := [vec 0 0 0; vec 2 0 0; vec 2 0 1];
                           polygons := [{| normal := unit_y; area := 1 |}] |};
                parent := None; matrix_parent_inverse := identity4 |} in
  vz (bottom_left c) <= vz (top_left c).
Proof.
  set (wall := {| name := "Wall"; matrix_world := identity4;
                  data := {| vertices := [vec 0 0 0; vec 2 0 0; vec 2 0 1];
                             polygons := [{| normal := unit_y; area := 1 |}] |};
                  parent := None; matrix_parent_inverse := identity4 |}).
  assert (Hne : _mesh_world_vertices wall <> []) by discriminate.
  pose proof (top_corners_above_bottom wall Hne) as T.
  pose proof (plane_basis_exact wall Hne) as Hex.
  assert (Hn : polygons_normal wall = Some unit_y).
  { unfold polygons_normal; cbn [polygons data wall fold_left].
    set (acc := vadd _ _).
    replace acc with unit_y
      by (apply vec_eq;
          unfold acc, vadd, vscale, mat3_mul_vec, dot, vzero, unit_y,
            identity3; simpl; ring).
    rewrite (length_unit _ unit_y_unit), (proj2 (ltb_true 1e-12 1)) by lra.
    rewrite (normalized_of_unit _ unit_y_unit); reflexivity. }
  unfold _compute_plane_basis in T.
  cbn [_mesh_world_vertices map vertices data wall] in T.
  rewrite Hn in T.
  destruct (build_basis unit_y) as [u v] eqn:Eb.
  cbv zeta in T; apply T.
  unfold unit_y; simpl; rewrite Rabs_R0; lra.
Defined.

Lemma orientation_flip_is_half_turn_witness :
  col2 (to_3x3 (matrix_world
     (fst (ensure_orientation_empty inverted_translation
             (square_scene 1 0 vzero) rect_plane (Some camera_behind)))))
  = vneg unit_z.
Proof.
  pose proof (orientation_flip_is_half_turn inverted_translation
                (square_scene 1 0 vzero) rect_plane camera_behind) as T.
  cbv zeta in T; rewrite rect_plane_basis in T.
  apply T.
  unfold camera_behind, vdiv, dot; simpl; lra.
Defined.

Lemma coincident_vertices_give_world_axes_witness :
  let '(_, u, v, n) := _compute_plane_basis twin_plane in
  u = vec 1 0 0 /\ v = unit_y /\ n = unit_z.
Proof.
  apply (coincident_vertices_give_world_axes twin_plane
           (mat_mul_vec (Translation (vec 1 2 3)) (vec 1 1 1))
           [mat_mul_vec (Translation (vec 1 2 3)) (vec 1 1 1)]).
  - reflexivity.
  - reflexivity.
  - intros p [<-|[]]; reflexivity.
Defined.


(** * More on the render aspect *)


Lemma even_up_ge n : (n <= even_up n)%Z.
Proof. apply even_up_bounds. Qed.

Lemma even_up_fixed n : even_up (even_up n) = even_up n.
Proof. apply even_up_of_even, even_up_even. Qed.

(** What a call does to the scene when the plane has positive width and
    height. *)
Lemma set_render_aspect_changed scene plane w h :
  width_height_from_corners plane = (w, h) -> 0 < w -> 0 < h ->
  set_render_aspect_to_plane scene plane
  = let res_x := even_up (Z.max 2 (resolution_x (render scene))) in
    let res_y := even_up (Z.max 2 (py_round (IZR res_x / (w / h)))) in
    Ret {| frame_current := frame_current scene;
           frame_subframe := frame_subframe scene;
           props := props scene;
           render := {| resolution_x := res_x; resolution_y := res_y;
                        pixel_aspect_x := 1; pixel_aspect_y := 1 |} |}.
Proof.
  intros Hwh Hw Hh.
  assert (Ha : 0 < w / h) by (apply Rdiv_lt_0_compat; assumption).
  unfold set_render_aspect_to_plane; rewrite Hwh.
  rewrite (proj2 (leb_false w 0)), (proj2 (leb_false h 0)) by assumption.
  cbn [orb]; rewrite truediv_ok by lra; cbn [mbind exc_bind].
  rewrite truediv_ok by lra; reflexivity.
Qed.

Lemma set_render_aspect_unchanged scene plane w h :
  width_height_from_corners plane = (w, h) -> w <= 0 \/ h <= 0 ->
  set_render_aspect_to_plane scene plane = Ret scene.
Proof.
  intros Hwh H; unfold set_render_aspect_to_plane; rewrite Hwh.
  destruct H as [H|H]; apply leb_true in H; rewrite H, ?orb_true_r;
    reflexivity.
Qed.

(** X9: the guard on the width and the height keeps both divisions of
    [set_render_aspect_to_plane] from a zero divisor: no scene and no plane
    make it raise ZeroDivisionError.  A call that returns leaves the frame,
    the subframe and the custom properties alone, and the render settings
    are either untouched or end with both resolutions even and at least 2
    and both pixel aspects 1. *)
Theorem set_render_aspect_no_zero_division
    (scene : Scene) (plane : Object Mesh) :
  set_render_aspect_to_plane scene plane <> Raise ZeroDivisionError
  /\ forall scene',
       set_render_aspect_to_plane scene plane = Ret scene' ->
       frame_current scene' = frame_current scene
       /\ frame_subframe scene' = frame_subframe scene
       /\ props scene' = props scene
       /\ (scene' = scene
           \/ (Z.even (resolution_x (render scene')) = true
               /\ Z.even (resolution_y (render scene')) = true
               /\ (2 <= resolution_x (render scene'))%Z
               /\ (2 <= resolution_y (render scene'))%Z
               /\ pixel_aspect_x (render scene') = 1
               /\ pixel_aspect_y (render scene') = 1)).
Proof.
  destruct (width_height_from_corners plane) as [w h] eqn:Hwh.
  destruct (Rle_dec w 0) as [Hw|Hw].
  { rewrite (set_render_aspect_unchanged _ _ w h) by auto.
    split; [discriminate|]; intros scene' [= <-]; auto. }
  destruct (Rle_dec h 0) as [Hh|Hh].
  { rewrite (set_render_aspect_unchanged _ _ w h) by auto.
    split; [discriminate|]; intros scene' [= <-]; auto. }
  rewrite (set_render_aspect_changed _ _ w h) by (assumption || lra).
  cbv zeta; split; [discriminate|]; intros scene' [= <-].
  cbn [frame_current frame_subframe props render resolution_x resolution_y
       pixel_aspect_x pixel_aspect_y].
  repeat apply conj; try reflexivity.
  right; repeat apply conj; try reflexivity; try apply even_up_even;
    match goal with
    | |- (2 <= even_up ?n)%Z => pose proof (even_up_ge n); lia
    end.
Qed.

(** X10: a second call with the same plane changes nothing more: the scene
    the first call returns is returned as it is by the second. *)
Theorem set_render_aspect_idempotent
    (scene scene' : Scene) (plane : Object Mesh) :
  set_render_aspect_to_plane scene plane = Ret scene' ->
  set_render_aspect_to_plane scene' plane = Ret scene'.
Proof.
  destruct (width_height_from_corners plane) as [w h] eqn:Hwh.
  destruct (Rle_dec w 0) as [Hw|Hw].
  { rewrite !(set_render_aspect_unchanged _ _ w h) by auto.
    intros [= <-]; reflexivity. }
  destruct (Rle_dec h 0) as [Hh|Hh].
  { rewrite !(set_render_aspect_unchanged _ _ w h) by auto.
    intros [= <-]; reflexivity. }
  rewrite !(set_render_aspect_changed _ _ w h) by (assumption || lra).
  cbv zeta; intros [= <-].
  cbn [frame_current frame_subframe props render resolution_x].
  assert (Hx : forall n, Z.max 2 (even_up (Z.max 2 n)) = even_up (Z.max 2 n)).
  { intros n; pose proof (even_up_ge (Z.max 2 n)); lia. }
  rewrite Hx, even_up_fixed; reflexivity.
Qed.


Lemma max_of_constant x l : (forall y, In y l -> y = x) -> max_of x l = x.
Proof.
  intros H; destruct (max_of_spec x l) as [_ [E|E]]; [auto|].
  apply H; exact E.
Qed.

Lemma min_of_constant x l : (forall y, In y l -> y = x) -> min_of x l = x.
Proof.
  intros H; destruct (min_of_spec x l) as [_ [E|E]]; [auto|].
  apply H; exact E.
Qed.

(** X12: a mesh whose vertices all coincide (a single vertex included) has
    width and height 0, and the call returns without touching the scene. *)
Theorem coincident_vertices_keep_resolution
    (scene : Scene) (plane : Object Mesh) (p0 : Vector) (ps : list Vector) :
  _mesh_world_vertices plane = p0 :: ps ->
  (forall p, In p ps -> p = p0) ->
  width_height_from_corners plane = (0, 0)
  /\ set_render_aspect_to_plane scene plane = Ret scene.
Proof.
  intros Hv Hall.
  assert (Hwh : width_height_from_corners plane = (0, 0)).
  { unfold width_height_from_corners.
    destruct (_compute_plane_basis plane) as [[[o u] v] n]; rewrite Hv.
    cbv zeta.
    rewrite (max_of_constant (dot p0 u)), (min_of_constant (dot p0 u)),
      (max_of_constant (dot p0 v)), (min_of_constant (dot p0 v));
      try (intros y Hy; apply in_map_iff in Hy as (p & <- & Hp);
           rewrite (Hall p Hp); reflexivity).
    replace (dot p0 u - dot p0 u) with 0 by ring.
    replace (dot p0 v - dot p0 v) with 0 by ring.
    rewrite Rabs_R0; reflexivity. }
  split; [exact Hwh|].
  apply (set_render_aspect_unchanged _ _ 0 0); [exact Hwh | left; lra].
Qed.

(** The call on the 2 x 1 rectangle, at 1920 x 1080. *)
Lemma rect_plane_aspect_set :
  set_render_aspect_to_plane (scene (square_scene 1 0 vzero)) rect_plane
  = Ret {| frame_current := 1; frame_subframe := 0; props := demo_props;
           render := {| resolution_x := 1920; resolution_y := 960;
                        pixel_aspect_x := 1; pixel_aspect_y := 1 |} |}.
Proof.
  rewrite (set_render_aspect_changed _ _ 2 1 rect_plane_width_height)
    by lra.
  cbv zeta; cbn [scene square_scene demo_bpy render demo_render resolution_x
                 frame_current frame_subframe props].
  change (even_up (Z.max 2 1920)) with 1920%Z.
  replace (1920 / (2 / 1)) with 960 by lra.
  rewrite py_round_IZR; reflexivity.
Qed.

Lemma set_render_aspect_idempotent_witness :
  exists scene',
    set_render_aspect_to_plane (scene (square_scene 1 0 vzero)) rect_plane
    = Ret scene'
    /\ set_render_aspect_to_plane scene' rect_plane = Ret scene'.
Proof.
  eexists; split; [exact rect_plane_aspect_set|].
  exact (set_render_aspect_idempotent _ _ rect_plane rect_plane_aspect_set).
Defined.

Lemma set_render_aspect_no_zero_division_witness :
  set_render_aspect_to_plane (scene (square_scene 1 0 vzero)) rect_plane
  <> Raise ZeroDivisionError.
Proof.
  apply (set_render_aspect_no_zero_division (scene (square_scene 1 0 vzero))
           rect_plane).
Defined.


Lemma coincident_vertices_keep_resolution_witness :
  set_render_aspect_to_plane (scene (square_scene 1 0 vzero)) point_plane
  = Ret (scene (square_scene 1 0 vzero)).
Proof.
  apply (coincident_vertices_keep_resolution (scene (square_scene 1 0 vzero))
           point_plane
           (mat_mul_vec (Translation (vec 1 2 3)) (vec 0 0 0)) []).
  - reflexivity.
  - intros p [].
Defined.

(** * More on the driver functions *)

Lemma all_present_4 {A : Type} (a b c d : option A) (es : list A) :
  all_present [a; b; c; d] = Some es ->
  exists e0 e1 e2 e3,
    a = Some e0 /\ b = Some e1 /\ c = Some e2 /\ d = Some e3
    /\ es = [e0; e1; e2; e3].
Proof.
  destruct a as [e0|], b as [e1|], c as [e2|], d as [e3|]; simpl;
    try discriminate.
  intros [= <-]; eauto 10.
Qed.

Lemma all_present_None_inv {A : Type} (l : list (option A)) :
  all_present l = None -> In None l.
Proof.
  induction l as [|[a|] l IH]; simpl; intros H;
    [discriminate | right | left; reflexivity].
  destruct (all_present l); [discriminate | auto].
Qed.

Section DriverExtras.

Variable inverted_safe : Matrix -> Matrix.

(** The data a recomputation returns and caches, written out. *)
Lemma recompute_data bpy cache camera_name plane_name cam plane e0 e1 e2 e3 cd :
  ~ cache_hit bpy cache ->
  props (scene bpy) !! "squinch_camera_name" = Some camera_name ->
  props (scene bpy) !! "squinch_plane_name" = Some plane_name ->
  camera_name <> "" -> plane_name <> "" ->
  find_object bpy camera_name = Some cam ->
  find_object bpy plane_name = Some plane ->
  get_corner_empties bpy (name plane) = [Some e0; Some e1; Some e2; Some e3] ->
  data cam = CameraData cd ->
  let u e := persp_u (corner_cam inverted_safe cam e) in
  let v e := persp_v (corner_cam inverted_safe cam e) in
  let max_u := Rmax4 (u e0) (u e1) (u e2) (u e3) in
  let min_u := Rmin4 (u e0) (u e1) (u e2) (u e3) in
  let data :=
    SquinchData.mk (max_u - min_u) ((min_u + max_u) * 0.5)
                   ((v e0 + v e1 + v e2 + v e3) * 0.25)
                   (sensor_width cd) (lens cd) in
  _calculate_squinch_data inverted_safe bpy cache
  = (Some data, Cache.mk (frame_current (scene bpy)) (Some data)).
Proof.
  intros Hm Hc Hp Hcn Hpn Hcam Hplane He Hd; cbv zeta.
  rewrite (calculate_miss inverted_safe bpy cache camera_name plane_name
             cam plane [e0; e1; e2; e3]); auto.
  2:{ rewrite He; reflexivity. }
  rewrite (squinch_try_ok inverted_safe cam e0 e1 e2 e3 cd Hd); cbv zeta.
  cbn [map]; rewrite max_of_4, min_of_4, py_sum_4; reflexivity.
Qed.

(** X13: on a cache miss the calculation returns data exactly when both
    configuration keys hold non-empty names, the camera and the plane
    resolve, the four corner empties of the plane resolve, and the camera
    object carries camera data.  Nothing else can make it fail: the
    perspective divide, [min], [max] and [sum] never raise. *)
Theorem recompute_succeeds_iff (bpy : Bpy) (cache : Cache.t) :
  ~ cache_hit bpy cache ->
  is_Some (fst (_calculate_squinch_data inverted_safe bpy cache))
  <-> exists camera_name plane_name cam plane e0 e1 e2 e3 cd,
        props (scene bpy) !! "squinch_camera_name" = Some camera_name
        /\ props (scene bpy) !! "squinch_plane_name" = Some plane_name
        /\ camera_name <> "" /\ plane_name <> ""
        /\ find_object bpy camera_name = Some cam
        /\ find_object bpy plane_name = Some plane
        /\ get_corner_empties bpy (name plane)
           = [Some e0; Some e1; Some e2; Some e3]
        /\ data cam = CameraData cd.
Proof.
  intros Hm; split.
  - intros [d Hd].
    destruct (props (scene bpy) !! "squinch_camera_name") as [cn|] eqn:Hc.
    2:{ rewrite calculate_failure in Hd; auto; [discriminate|].
        apply unset_camera_name; rewrite Hc; reflexivity. }
    destruct (props (scene bpy) !! "squinch_plane_name") as [pn|] eqn:Hp.
    2:{ rewrite calculate_failure in Hd; auto; [discriminate|].
        apply unset_plane_name; rewrite Hp; reflexivity. }
    destruct (decide (cn = "")) as [Hcn|Hcn].
    { rewrite calculate_failure in Hd; auto; [discriminate|].
      apply unset_camera_name; rewrite Hc, Hcn; reflexivity. }
    destruct (decide (pn = "")) as [Hpn|Hpn].
    { rewrite calculate_failure in Hd; auto; [discriminate|].
      apply unset_plane_name; rewrite Hp, Hpn; reflexivity. }
    destruct (find_object bpy cn) as [cam|] eqn:Hcam.
    2:{ rewrite calculate_failure in Hd; auto; [discriminate|].
        eapply unresolved_camera; eauto. }
    destruct (find_object bpy pn) as [plane|] eqn:Hplane.
    2:{ rewrite calculate_failure in Hd; auto; [discriminate|].
        eapply unresolved_plane; eauto. }
    destruct (all_present (get_corner_empties bpy (name plane)))
      as [es|] eqn:He.
    2:{ rewrite calculate_failure in Hd; auto; [discriminate|].
        eapply unresolved_corner; eauto.
        apply all_present_None_inv; exact He. }
    unfold get_corner_empties in He; cbn [map] in He.
    apply all_present_4 in He as (e0 & e1 & e2 & e3 & H0 & H1 & H2 & H3 & ->).
    assert (Hes : get_corner_empties bpy (name plane)
                  = [Some e0; Some e1; Some e2; Some e3]).
    { unfold get_corner_empties; cbn [map]; rewrite H0, H1, H2, H3; auto. }
    destruct (data cam) as [me|cd|] eqn:Hdata.
    + rewrite (calculate_miss inverted_safe bpy cache cn pn cam plane
                 [e0; e1; e2; e3]) in Hd; auto.
      2:{ rewrite Hes; reflexivity. }
      rewrite squinch_try_no_camera_data in Hd; [discriminate|].
      intros cd; rewrite Hdata; discriminate.
    + exists cn, pn, cam, plane, e0, e1, e2, e3, cd; repeat split; auto.
    + rewrite (calculate_miss inverted_safe bpy cache cn pn cam plane
                 [e0; e1; e2; e3]) in Hd; auto.
      2:{ rewrite Hes; reflexivity. }
      rewrite squinch_try_no_camera_data in Hd; [discriminate|].
      intros cd; rewrite Hdata; discriminate.
  - intros (cn & pn & cam & plane & e0 & e1 & e2 & e3 & cd
            & Hc & Hp & Hcn & Hpn & Hcam & Hplane & He & Hd).
    rewrite (recompute_data bpy cache cn pn cam plane e0 e1 e2 e3 cd)
      by auto.
    cbv zeta; cbn [fst]; eauto.
Qed.

Lemma Rmax4_spec a b c d :
  a <= Rmax4 a b c d /\ b <= Rmax4 a b c d /\ c <= Rmax4 a b c d
  /\ d <= Rmax4 a b c d
  /\ (Rmax4 a b c d = a \/ Rmax4 a b c d = b \/ Rmax4 a b c d = c
      \/ Rmax4 a b c d = d).
Proof.
  unfold Rmax4, Rmax; repeat (destruct (Rle_dec _ _)); repeat split;
    try lra; auto.
Qed.

Lemma Rmin4_spec a b c d :
  Rmin4 a b c d <= a /\ Rmin4 a b c d <= b /\ Rmin4 a b c d <= c
  /\ Rmin4 a b c d <= d
  /\ (Rmin4 a b c d = a \/ Rmin4 a b c d = b \/ Rmin4 a b c d = c
      \/ Rmin4 a b c d = d).
Proof.
  unfold Rmin4, Rmin; repeat (destruct (Rle_dec _ _)); repeat split;
    try lra; auto.
Qed.

Lemma configured_data bpy cache cam cd e0 e1 e2 e3 :
  ~ cache_hit bpy cache -> Configured bpy cam cd e0 e1 e2 e3 ->
  let u e := persp_u (corner_cam inverted_safe cam e) in
  let v e := persp_v (corner_cam inverted_safe cam e) in
  let max_u := Rmax4 (u e0) (u e1) (u e2) (u e3) in
  let min_u := Rmin4 (u e0) (u e1) (u e2) (u e3) in
  let data :=
    SquinchData.mk (max_u - min_u) ((min_u + max_u) * 0.5)
                   ((v e0 + v e1 + v e2 + v e3) * 0.25)
                   (sensor_width cd) (lens cd) in
  _calculate_squinch_data inverted_safe bpy cache
  = (Some data, Cache.mk (frame_current (scene bpy)) (Some data)).
Proof.
  intros Hm (cn & pn & plane & Hc & Hp & Hcn & Hpn & Hcam & Hplane & He & Hd).
  eapply recompute_data; eauto.
Qed.

(** X14: the focal length returned by [squinch_horizontal_fov] is never
    below 1.0, whatever the scene and the cache hold. *)
Theorem fov_at_least_one (bpy : Bpy) (cache : Cache.t) :
  exists focal cache',
    squinch_horizontal_fov inverted_safe bpy cache = (Ret focal, cache')
    /\ 1 <= focal.
Proof.
  destruct (_calculate_squinch_data inverted_safe bpy cache)
    as [result c] eqn:E.
  pose proof (query_values inverted_safe bpy cache c result E) as H.
  cbv beta zeta iota in H.
  destruct result as [data|];
    [destruct (Rle_dec (Rabs (SquinchData.width_u data)) 1e-9)|];
    destruct H as (-> & _); do 2 eexists; split; try reflexivity;
    try lra; apply Rmax_l.
Qed.

(** X15: the data of a successful recomputation describes a box that holds
    its own centre: width_u is not negative, center_u lies between the
    smallest and the largest u of the four corners, and center_v between the
    smallest and the largest v. *)
Theorem projected_centre_inside_extent
    (bpy : Bpy) (cache : Cache.t) (cam : Object ObData) (cd : Camera)
    (e0 e1 e2 e3 : Object ObData) :
  ~ cache_hit bpy cache -> Configured bpy cam cd e0 e1 e2 e3 ->
  let u e := persp_u (corner_cam inverted_safe cam e) in
  let v e := persp_v (corner_cam inverted_safe cam e) in
  exists data cache',
    _calculate_squinch_data inverted_safe bpy cache = (Some data, cache')
    /\ 0 <= SquinchData.width_u data
    /\ Rmin4 (u e0) (u e1) (u e2) (u e3) <= SquinchData.center_u data
       <= Rmax4 (u e0) (u e1) (u e2) (u e3)
    /\ Rmin4 (v e0) (v e1) (v e2) (v e3) <= SquinchData.center_v data
       <= Rmax4 (v e0) (v e1) (v e2) (v e3).
Proof.
  intros Hm Hc; cbv zeta.
  rewrite (configured_data bpy cache cam cd e0 e1 e2 e3 Hm Hc); cbv zeta.
  do 2 eexists; split; [reflexivity|].
  cbn [SquinchData.width_u SquinchData.center_u SquinchData.center_v].
  set (u0 := persp_u (corner_cam inverted_safe cam e0)).
  set (u1 := persp_u (corner_cam inverted_safe cam e1)).
  set (u2 := persp_u (corner_cam inverted_safe cam e2)).
  set (u3 := persp_u (corner_cam inverted_safe cam e3)).
  set (v0 := persp_v (corner_cam inverted_safe cam e0)).
  set (v1 := persp_v (corner_cam inverted_safe cam e1)).
  set (v2 := persp_v (corner_cam inverted_safe cam e2)).
  set (v3 := persp_v (corner_cam inverted_safe cam e3)).
  pose proof (Rmax4_spec u0 u1 u2 u3) as (U0 & _).
  pose proof (Rmin4_spec u0 u1 u2 u3) as (L0 & _).
  pose proof (Rmax4_spec v0 v1 v2 v3) as (A0 & A1 & A2 & A3 & _).
  pose proof (Rmin4_spec v0 v1 v2 v3) as (B0 & B1 & B2 & B3 & _).
  repeat apply conj; lra.
Qed.

(** X17: once the frame differs from the cached frame key, the old entry
    plays no part: the call returns what it would return with the fresh
    cache, and it either leaves the cache untouched (no data) or re-keys it
    to the current frame. *)
Theorem frame_change_recomputes (bpy : Bpy) (cache : Cache.t) :
  Cache.frame cache <> frame_current (scene bpy) ->
  let r := _calculate_squinch_data inverted_safe bpy cache in
  fst r = fst (_calculate_squinch_data inverted_safe bpy _squinch_cache)
  /\ ((fst r = None /\ snd r = cache)
      \/ (exists data,
            r = (Some data,
                 Cache.mk (frame_current (scene bpy)) (Some data)))).
Proof.
  intros Hf; cbv zeta.
  assert (Hm : ~ cache_hit bpy cache) by (intros [H _]; contradiction).
  assert (Hm0 : ~ cache_hit bpy _squinch_cache)
    by (intros [_ [d Hd]]; discriminate Hd).
  split; [apply calculate_miss_independent; assumption|].
  destruct (calculate_cases inverted_safe bpy cache)
    as [[Hh _]|[[_ E]|[_ [d E]]]]; [contradiction| |]; rewrite E; eauto.
Qed.

(** X18: asking twice is asking once.  When a query is repeated on the same
    scene with the cache the first call left behind, it returns the same
    value and leaves that cache as it is; this holds for each of the three
    queries. *)
Theorem repeated_query_same_answer (bpy : Bpy) (cache : Cache.t) :
  (let r := squinch_horizontal_fov inverted_safe bpy cache in
   squinch_horizontal_fov inverted_safe bpy (snd r) = r)
  /\ (let r := squinch_horizontal_shift inverted_safe bpy cache in
      squinch_horizontal_shift inverted_safe bpy (snd r) = r)
  /\ (let r := squinch_vertical_shift inverted_safe bpy cache in
      squinch_vertical_shift inverted_safe bpy (snd r) = r).
Proof.
  pose proof (calculate_idempotent inverted_safe bpy cache) as Hi.
  cbv zeta in Hi.
  destruct (_calculate_squinch_data inverted_safe bpy cache)
    as [result c] eqn:E; cbn [snd] in Hi.
  pose proof (query_values inverted_safe bpy cache c result E) as Q1.
  pose proof (query_values inverted_safe bpy c c result Hi) as Q2.
  cbv beta zeta iota in Q1, Q2.
  destruct result as [data|];
    [destruct (Rle_dec (Rabs (SquinchData.width_u data)) 1e-9)|];
    destruct Q1 as (-> & -> & ->); cbn [snd]; tauto.
Qed.

End DriverExtras.

(** ** Closed instances on the square scene *)

Lemma square_configured frame subframe cam_loc :
  Configured (square_scene frame subframe cam_loc)
    (object_at "Camera" cam_loc (CameraData demo_camera) None) demo_camera
    (object_at "Squinch_Plane_bottom_left" (vec (-1) (-1) (-10)) NoData
               (Some "Plane"))
    (object_at "Squinch_Plane_bottom_right" (vec 1 (-1) (-10)) NoData
               (Some "Plane"))
    (object_at "Squinch_Plane_top_left" (vec (-1) 1 (-10)) NoData
               (Some "Plane"))
    (object_at "Squinch_Plane_top_right" (vec 1 1 (-10)) NoData
               (Some "Plane")).
Proof.
  exists "Camera", "Plane",
    (object_at "Plane" (vec 0 0 (-10)) (MeshData square_mesh) None).
  repeat apply conj; try reflexivity; discriminate.
Qed.

Lemma recompute_succeeds_iff_witness :
  is_Some (fst (_calculate_squinch_data inverted_translation
                  (square_scene 1 0 vzero) _squinch_cache)).
Proof.
  apply (recompute_succeeds_iff inverted_translation (square_scene 1 0 vzero)
           _squinch_cache (initial_cache_miss _)).
  exists "Camera", "Plane",
    (object_at "Camera" vzero (CameraData demo_camera) None),
    (object_at "Plane" (vec 0 0 (-10)) (MeshData square_mesh) None),
    (object_at "Squinch_Plane_bottom_left" (vec (-1) (-1) (-10)) NoData
               (Some "Plane")),
    (object_at "Squinch_Plane_bottom_right" (vec 1 (-1) (-10)) NoData
               (Some "Plane")),
    (object_at "Squinch_Plane_top_left" (vec (-1) 1 (-10)) NoData
               (Some "Plane")),
    (object_at "Squinch_Plane_top_right" (vec 1 1 (-10)) NoData
               (Some "Plane")),
    demo_camera.
  repeat apply conj; try reflexivity; discriminate.
Defined.

Lemma projected_centre_inside_extent_witness :
  exists data cache',
    _calculate_squinch_data inverted_translation (square_scene 1 0 vzero)
      _squinch_cache = (Some data, cache')
    /\ 0 <= SquinchData.width_u data.
Proof.
  destruct (projected_centre_inside_extent inverted_translation
              (square_scene 1 0 vzero) _squinch_cache _ _ _ _ _ _
              (initial_cache_miss _) (square_configured 1 0 vzero))
    as (data & cache' & E & Hw & _).
  exists data, cache'; split; [exact E | exact Hw].
Defined.

Lemma frame_change_recomputes_witness :
  fst (_calculate_squinch_data inverted_translation (square_scene 1 0 vzero)
         (Cache.mk 7 (Some (square_data 20))))
  = fst (_calculate_squinch_data inverted_translation (square_scene 1 0 vzero)
           _squinch_cache).
Proof.
  apply (frame_change_recomputes inverted_translation (square_scene 1 0 vzero)
           (Cache.mk 7 (Some (square_data 20)))).
  simpl; lia.
Defined.

(** * Setting a scene up: the corner empties *)

Lemma corner_name_inj plane_name l1 l2 :
  get_corner_empty_name plane_name l1 = get_corner_empty_name plane_name l2 ->
  l1 = l2.
Proof.
  unfold get_corner_empty_name; intros H.
  repeat apply String.app_inj in H; exact H.
Qed.

Lemma bpy_eq (b1 b2 : Bpy) :
  scene b1 = scene b2 -> objects b1 = objects b2 -> b1 = b2.
Proof. destruct b1, b2; simpl; intros -> ->; reflexivity. Qed.

Section SetupFacts.

Variable inverted_safe : Matrix -> Matrix.

Lemma ensure_empty_other {D : Type} bpy nm loc (p : Object D) nm' :
  nm <> nm' ->
  find_object (snd (ensure_empty inverted_safe bpy nm loc p)) nm'
  = find_object bpy nm'.
Proof. intros H; unfold find_object; simpl; apply lookup_insert_ne, H. Qed.

Lemma ensure_empty_congr {D : Type} bpy bpy' nm loc (p : Object D) :
  find_object bpy' nm = find_object bpy nm ->
  fst (ensure_empty inverted_safe bpy' nm loc p)
  = fst (ensure_empty inverted_safe bpy nm loc p).
Proof. intros H; unfold ensure_empty; simpl; rewrite H; reflexivity. Qed.

(** The four steps of the loop, each empty written from the store the call
    started with. *)
Lemma create_corner_empties_result bpy plane :
  let c := get_plane_corner_world_positions plane in
  let n := get_corner_empty_name (name plane) in
  let e label loc := fst (ensure_empty inverted_safe bpy (n label) loc plane) in
  let e0 := e "bottom_left" (bottom_left c) in
  let e1 := e "bottom_right" (bottom_right c) in
  let e2 := e "top_left" (top_left c) in
  let e3 := e "top_right" (top_right c) in
  create_corner_empties inverted_safe bpy plane
  = (<["top_right" := e3]> (<["top_left" := e2]>
       (<["bottom_right" := e1]> (<["bottom_left" := e0]> ∅))),
     {| scene := scene bpy;
        objects := <[n "top_right" := e3]> (<[n "top_left" := e2]>
                     (<[n "bottom_right" := e1]>
                        (<[n "bottom_left" := e0]> (objects bpy)))) |}).
Proof.
  cbv beta zeta.
  set (c := get_plane_corner_world_positions plane).
  set (n := get_corner_empty_name (name plane)).
  assert (Hn : forall l1 l2, l1 <> l2 -> n l1 <> n l2)
    by (intros l1 l2 Hl Hn; apply Hl, (corner_name_inj _ _ _ Hn)).
  pose (r0 := ensure_empty inverted_safe bpy (n "bottom_left")
                (bottom_left c) plane).
  pose (r1 := ensure_empty inverted_safe (snd r0) (n "bottom_right")
                (bottom_right c) plane).
  pose (r2 := ensure_empty inverted_safe (snd r1) (n "top_left")
                (top_left c) plane).
  pose (r3 := ensure_empty inverted_safe (snd r2) (n "top_right")
                (top_right c) plane).
  assert (E1 : fst r1 = fst (ensure_empty inverted_safe bpy (n "bottom_right")
                               (bottom_right c) plane)).
  { apply ensure_empty_congr; subst r0.
    rewrite ensure_empty_other by (apply Hn; discriminate); reflexivity. }
  assert (E2 : fst r2 = fst (ensure_empty inverted_safe bpy (n "top_left")
                               (top_left c) plane)).
  { apply ensure_empty_congr; subst r1 r0.
    rewrite !ensure_empty_other by (apply Hn; discriminate); reflexivity. }
  assert (E3 : fst r3 = fst (ensure_empty inverted_safe bpy (n "top_right")
                               (top_right c) plane)).
  { apply ensure_empty_congr; subst r2 r1 r0.
    rewrite !ensure_empty_other by (apply Hn; discriminate); reflexivity. }
  rewrite <- E1, <- E2, <- E3; reflexivity.
Qed.

Lemma ensure_empty_again {D : Type} bpy bpy' nm loc (p : Object D) :
  find_object bpy' nm = Some (fst (ensure_empty inverted_safe bpy nm loc p)) ->
  fst (ensure_empty inverted_safe bpy' nm loc p)
  = fst (ensure_empty inverted_safe bpy nm loc p).
Proof.
  intros H; unfold ensure_empty in *; cbn [fst] in *; rewrite H.
  reflexivity.
Qed.

Lemma ensure_empty_keeps {D : Type} bpy nm loc (p : Object D) obj :
  find_object bpy nm = Some obj ->
  name (fst (ensure_empty inverted_safe bpy nm loc p)) = name obj
  /\ data (fst (ensure_empty inverted_safe bpy nm loc p)) = data obj.
Proof. intros H; unfold ensure_empty; simpl; rewrite H; auto. Qed.

Lemma corner_names_differ plane_name l1 l2 :
  l1 <> l2 ->
  get_corner_empty_name plane_name l1 <> get_corner_empty_name plane_name l2.
Proof. intros Hl Hn; apply Hl, (corner_name_inj _ _ _ Hn). Qed.

(** The store after the loop, looked up at a corner name and elsewhere. *)
Lemma create_corner_empties_lookup bpy plane :
  let c := get_plane_corner_world_positions plane in
  let n := get_corner_empty_name (name plane) in
  let e label loc := fst (ensure_empty inverted_safe bpy (n label) loc plane) in
  let bpy' := snd (create_corner_empties inverted_safe bpy plane) in
  scene bpy' = scene bpy
  /\ find_object bpy' (n "bottom_left") = Some (e "bottom_left" (bottom_left c))
  /\ find_object bpy' (n "bottom_right")
     = Some (e "bottom_right" (bottom_right c))
  /\ find_object bpy' (n "top_left") = Some (e "top_left" (top_left c))
  /\ find_object bpy' (n "top_right") = Some (e "top_right" (top_right c))
  /\ (forall nm,
        nm <> n "bottom_left" -> nm <> n "bottom_right" ->
        nm <> n "top_left" -> nm <> n "top_right" ->
        find_object bpy' nm = find_object bpy nm).
Proof.
  cbv beta zeta; rewrite create_corner_empties_result; cbv beta zeta.
  unfold find_object; cbn [snd scene objects].
  repeat apply conj; try reflexivity.
  - rewrite !lookup_insert_ne by (apply corner_names_differ; discriminate).
    apply lookup_insert_eq.
  - rewrite !lookup_insert_ne by (apply corner_names_differ; discriminate).
    apply lookup_insert_eq.
  - rewrite !lookup_insert_ne by (apply corner_names_differ; discriminate).
    apply lookup_insert_eq.
  - apply lookup_insert_eq.
  - intros nm H0 H1 H2 H3.
    rewrite !lookup_insert_ne by (apply not_eq_sym; assumption).
    reflexivity.
Qed.

Lemma create_corner_empties_keeps bpy plane nm obj :
  find_object bpy nm = Some obj ->
  exists obj',
    find_object (snd (create_corner_empties inverted_safe bpy plane)) nm
    = Some obj'
    /\ name obj' = name obj /\ data obj' = data obj.
Proof.
  intros H.
  destruct (create_corner_empties_lookup bpy plane)
    as (_ & L0 & L1 & L2 & L3 & Lo); cbv beta zeta in *.
  set (n := get_corner_empty_name (name plane)) in *.
  destruct (decide (nm = n "bottom_left")) as [->|N0];
    [eexists; split; [exact L0 | apply ensure_empty_keeps, H]|].
  destruct (decide (nm = n "bottom_right")) as [->|N1];
    [eexists; split; [exact L1 | apply ensure_empty_keeps, H]|].
  destruct (decide (nm = n "top_left")) as [->|N2];
    [eexists; split; [exact L2 | apply ensure_empty_keeps, H]|].
  destruct (decide (nm = n "top_right")) as [->|N3];
    [eexists; split; [exact L3 | apply ensure_empty_keeps, H]|].
  exists obj; rewrite Lo by assumption; auto.
Qed.

(** X19: for a plane whose name has at most 42 bytes, so that the longest
    corner name fits the 63 bytes of an object name, the corner empties
    that [create_corner_empties] leaves in the store are the ones
    [get_corner_empties] finds under the plane's name, in the order
    bottom_left, bottom_right, top_left, top_right; they are the values of
    the returned dictionary; each sits at its corner of
    [get_plane_corner_world_positions], is parented to the plane and holds
    the inverse of the plane's world matrix.  This holds whatever the store
    held before, also when some of the four names were taken. *)
Theorem created_corners_resolve (bpy : Bpy) (plane : Object Mesh) :
  (String.length (name plane) <= 42)%nat ->
  let corners := get_plane_corner_world_positions plane in
  let r := create_corner_empties inverted_safe bpy plane in
  exists e0 e1 e2 e3,
    get_corner_empties (snd r) (name plane)
    = [Some e0; Some e1; Some e2; Some e3]
    /\ fst r !! "bottom_left" = Some e0
    /\ fst r !! "bottom_right" = Some e1
    /\ fst r !! "top_left" = Some e2
    /\ fst r !! "top_right" = Some e3
    /\ matrix_world e0 = Translation (bottom_left corners)
    /\ matrix_world e1 = Translation (bottom_right corners)
    /\ matrix_world e2 = Translation (top_left corners)
    /\ matrix_world e3 = Translation (top_right corners)
    /\ Forall (fun e => parent e = Some (name plane)
                        /\ matrix_parent_inverse e
                           = inverted_safe (matrix_world plane))
              [e0; e1; e2; e3].
Proof.
  intros _; cbv zeta.
  destruct (create_corner_empties_lookup bpy plane)
    as (_ & L0 & L1 & L2 & L3 & _); cbv beta zeta in *.
  unfold get_corner_empties; cbn [map]; rewrite L0, L1, L2, L3.
  do 4 eexists; split; [reflexivity|].
  rewrite create_corner_empties_result; cbv beta zeta; cbn [fst].
  repeat apply conj; try reflexivity;
    try (rewrite !lookup_insert_ne by discriminate; apply lookup_insert_eq).
  repeat constructor.
Qed.

(** X20: [create_corner_empties] deletes nothing and retypes nothing.  An
    object that was in the store is still found under its name, with the
    name and the data it had; unless its name is one of the four corner
    names of the plane, it is unchanged altogether.  The scene is left as
    it was. *)
Theorem create_corner_empties_keeps_objects
    (bpy : Bpy) (plane : Object Mesh) (nm : string) (obj : Object ObData) :
  find_object bpy nm = Some obj ->
  let bpy' := snd (create_corner_empties inverted_safe bpy plane) in
  scene bpy' = scene bpy
  /\ exists obj',
       find_object bpy' nm = Some obj'
       /\ name obj' = name obj /\ data obj' = data obj
       /\ ((forall label,
              In label ["bottom_left"; "bottom_right"; "top_left"; "top_right"]
              -> nm <> get_corner_empty_name (name plane) label)
           -> obj' = obj).
Proof.
  intros H; cbv zeta.
  destruct (create_corner_empties_lookup bpy plane)
    as (Hs & _ & _ & _ & _ & Lo); cbv beta zeta in *.
  split; [exact Hs|].
  destruct (create_corner_empties_keeps bpy plane nm obj H)
    as (obj' & Hf & Hn & Hd).
  exists obj'; repeat apply conj; auto.
  intros Hl; rewrite Lo, H in Hf by (apply Hl; simpl; auto).
  congruence.
Qed.

(** X21: for a plane whose name has at most 42 bytes, running
    [create_corner_empties] again on the store it left, for the same
    plane, changes nothing: the same dictionary comes back and the store
    is the same. *)
Theorem create_corner_empties_idempotent (bpy : Bpy) (plane : Object Mesh) :
  (String.length (name plane) <= 42)%nat ->
  let r := create_corner_empties inverted_safe bpy plane in
  create_corner_empties inverted_safe (snd r) plane = r.
Proof.
  intros _; cbv zeta.
  destruct (create_corner_empties_lookup bpy plane)
    as (Hs & L0 & L1 & L2 & L3 & _); cbv beta zeta in *.
  rewrite (create_corner_empties_result
             (snd (create_corner_empties inverted_safe bpy plane)) plane).
  cbv beta zeta.
  rewrite (ensure_empty_again bpy _ _ _ _ L0), (ensure_empty_again bpy _ _ _ _ L1),
    (ensure_empty_again bpy _ _ _ _ L2), (ensure_empty_again bpy _ _ _ _ L3).
  rewrite Hs.
  rewrite (create_corner_empties_result bpy plane) in *; cbv beta zeta in *.
  cbn [snd objects] in *; unfold find_object in *; cbn [objects] in *.
  f_equal; apply bpy_eq; [reflexivity|]; cbn [objects].
  rewrite (insert_id _ _ _ L0), (insert_id _ _ _ L1), (insert_id _ _ _ L2),
    (insert_id _ _ _ L3); reflexivity.
Qed.

(** X22: the corner empties feed the driver functions.  Let the plane's
    name have at most 42 bytes, let both
    configuration keys name objects of the store, the first a camera and
    the second an object with the plane's name, and let the camera's name
    be none of the plane's corner names.  After [create_corner_empties],
    a recomputation succeeds, and its data is the projection of the
    plane's four corners of [get_plane_corner_world_positions] through
    the camera: width_u is the extent of their u values, center_u the
    midpoint of that extent, center_v the mean of their v values. *)
Theorem created_corners_drive_projection
    (bpy : Bpy) (cache : Cache.t) (plane : Object Mesh)
    (camera_name plane_name : string) (cam plane_obj : Object ObData)
    (cd : Camera) :
  (String.length (name plane) <= 42)%nat ->
  props (scene bpy) !! "squinch_camera_name" = Some camera_name ->
  props (scene bpy) !! "squinch_plane_name" = Some plane_name ->
  camera_name <> "" -> plane_name <> "" ->
  find_object bpy camera_name = Some cam -> data cam = CameraData cd ->
  find_object bpy plane_name = Some plane_obj ->
  name plane_obj = name plane ->
  (forall label, camera_name <> get_corner_empty_name (name plane) label) ->
  let bpy' := snd (create_corner_empties inverted_safe bpy plane) in
  ~ cache_hit bpy' cache ->
  let corners := get_plane_corner_world_positions plane in
  let u c := persp_u (mat_mul_vec (inverted_safe (matrix_world cam)) c) in
  let v c := persp_v (mat_mul_vec (inverted_safe (matrix_world cam)) c) in
  let max_u := Rmax4 (u (bottom_left corners)) (u (bottom_right corners))
                     (u (top_left corners)) (u (top_right corners)) in
  let min_u := Rmin4 (u (bottom_left corners)) (u (bottom_right corners))
                     (u (top_left corners)) (u (top_right corners)) in
  let data :=
    SquinchData.mk (max_u - min_u) ((min_u + max_u) * 0.5)
                   ((v (bottom_left corners) + v (bottom_right corners)
                     + v (top_left corners) + v (top_right corners)) * 0.25)
                   (sensor_width cd) (lens cd) in
  _calculate_squinch_data inverted_safe bpy' cache
  = (Some data, Cache.mk (frame_current (scene bpy)) (Some data)).
Proof.
  intros _ Hc Hp Hcn Hpn Hcam Hcd Hplane Hname Hfree; cbv zeta; intros Hm.
  destruct (create_corner_empties_lookup bpy plane)
    as (Hs & L0 & L1 & L2 & L3 & Lo); cbv beta zeta in *.
  destruct (create_corner_empties_keeps bpy plane plane_name plane_obj Hplane)
    as (plane' & Hplane' & Hname' & _).
  set (bpy' := snd (create_corner_empties inverted_safe bpy plane)) in *.
  match type of L0 with _ = Some ?e => set (e0 := e) in * end.
  match type of L1 with _ = Some ?e => set (e1 := e) in * end.
  match type of L2 with _ = Some ?e => set (e2 := e) in * end.
  match type of L3 with _ = Some ?e => set (e3 := e) in * end.
  assert (R := recompute_data inverted_safe bpy' cache camera_name plane_name
                 cam plane' e0 e1 e2 e3 cd Hm).
  cbv zeta in R; rewrite Hs in R; rewrite R; auto.
  - rewrite Lo by apply Hfree; exact Hcam.
  - rewrite Hname', Hname; unfold get_corner_empties; cbn [map].
    rewrite L0, L1, L2, L3; reflexivity.
Qed.

End SetupFacts.

(** * The helpers of a plane do not collide *)

Lemma count_char_app a s1 s2 :
  count_char a (s1 +:+ s2) = (count_char a s1 + count_char a s2)%nat.
Proof.
  induction s1 as [|b s1 IH]; [reflexivity|].
  simpl; rewrite IH; lia.
Qed.

(** No corner name of a plane is its orientation name: "_bottom_left" and
    "_bottom_right" hold a "b" and "_top_left" and "_top_right" a "p",
    which "Orientation_" does not. *)
Lemma orientation_name_not_corner plane_name label :
  In label ["bottom_left"; "bottom_right"; "top_left"; "top_right"] ->
  get_orientation_empty_name plane_name
  <> get_corner_empty_name plane_name label.
Proof.
  intros Hl H.
  unfold get_orientation_empty_name, get_corner_empty_name in H.
  change ("Squinch_Orientation_" +:+ plane_name)
    with ("Squinch_" +:+ "Orientation_" +:+ plane_name) in H.
  apply String.app_inj in H.
  assert (Hb := f_equal (count_char (Ascii.ascii_of_nat 98)) H).
  assert (Hp := f_equal (count_char (Ascii.ascii_of_nat 112)) H).
  rewrite !count_char_app in Hb, Hp.
  destruct Hl as [<-|[<-|[<-|[<-|[]]]]]; simpl in Hb, Hp; lia.
Qed.

Section HelperNames.

Variable inverted_safe : Matrix -> Matrix.

Lemma ensure_orientation_empty_objects bpy plane camera :
  objects (snd (ensure_orientation_empty inverted_safe bpy plane camera))
  = <[get_orientation_empty_name (name plane) :=
        fst (ensure_orientation_empty inverted_safe bpy plane camera)]>
    (objects bpy).
Proof.
  unfold ensure_orientation_empty.
  destruct (_compute_plane_basis plane) as [[[o u] v] n].
  destruct camera as [camera|]; [|reflexivity].
  destruct (ltb _ 0); [|reflexivity].
  destruct (build_basis (vneg n)); reflexivity.
Qed.

(** X23: the orientation empty and the corner empties of one plane never
    overwrite each other, for a plane whose name has at most 42 bytes (so
    that every helper name fits the 63 bytes of an object name).
    [ensure_orientation_empty] leaves what [get_corner_empties] finds for
    the plane as it was, and puts its own empty under the orientation
    name; [create_corner_empties] leaves the object under the orientation
    name as it was. *)
Theorem helpers_do_not_collide
    (bpy : Bpy) (plane : Object Mesh) (camera : option (Object ObData)) :
  (String.length (name plane) <= 42)%nat ->
  let r := ensure_orientation_empty inverted_safe bpy plane camera in
  get_corner_empties (snd r) (name plane) = get_corner_empties bpy (name plane)
  /\ find_object (snd r) (get_orientation_empty_name (name plane))
     = Some (fst r)
  /\ find_object (snd (create_corner_empties inverted_safe bpy plane))
                 (get_orientation_empty_name (name plane))
     = find_object bpy (get_orientation_empty_name (name plane)).
Proof.
  intros _; cbv zeta; repeat apply conj.
  - unfold get_corner_empties, find_object; cbn [map].
    rewrite ensure_orientation_empty_objects.
    rewrite !lookup_insert_ne
      by (apply orientation_name_not_corner; simpl; auto).
    reflexivity.
  - unfold find_object; rewrite ensure_orientation_empty_objects.
    apply lookup_insert_eq.
  - destruct (create_corner_empties_lookup inverted_safe bpy plane)
      as (_ & _ & _ & _ & _ & Lo); cbv beta zeta in Lo.
    apply Lo; apply orientation_name_not_corner; simpl; auto.
Qed.

End HelperNames.

(** * The copy-rotation constraint *)

Lemma filter_named_app (P : Constraint -> Prop)
    `{!forall c, Decision (P c)} (l : list Constraint) (c : Constraint) :
  filter P (l ++ [c]) = filter P l ++ (if decide (P c) then [c] else []).
Proof.
  rewrite filter_app; reflexivity.
Qed.

(** X24: [add_copy_rotation_constraint] leaves exactly one constraint named
    "Squinch Copy Rotation" on the camera: it is the last one, it targets
    the object passed, and the constraints of other names are kept, in
    their order.  Calling it again replaces that constraint: the outcome is
    that of the last call alone. *)
Theorem copy_rotation_constraint_single
    (constraints : list Constraint) (t1 t2 : Object ObData) :
  let nm := "Squinch Copy Rotation" in
  let cs := add_copy_rotation_constraint constraints t1 in
  (exists c,
     filter (fun c => con_name c = nm) cs = [c]
     /\ last cs = Some c
     /\ target c = Some (name t1) /\ con_type c = "COPY_ROTATION")
  /\ filter (fun c => con_name c <> nm) cs
     = filter (fun c => con_name c <> nm) constraints
  /\ add_copy_rotation_constraint cs t2
     = add_copy_rotation_constraint constraints t2.
Proof.
  cbv zeta; unfold add_copy_rotation_constraint.
  set (nm := "Squinch Copy Rotation").
  set (keep := filter (fun c => con_name c <> nm) constraints).
  assert (Hnone : filter (fun c => con_name c = nm) keep = []).
  { subst keep; induction constraints as [|c l IH]; [reflexivity|].
    rewrite filter_cons; destruct (decide (con_name c <> nm)) as [Hc|Hc];
      [|exact IH].
    rewrite filter_cons; destruct (decide (con_name c = nm)); [|exact IH].
    contradiction. }
  assert (Hkeep : filter (fun c => con_name c <> nm) keep = keep).
  { subst keep; apply list_filter_filter_l; auto. }
  repeat apply conj.
  - eexists; repeat apply conj; [| apply last_snoc | reflexivity | reflexivity].
    rewrite filter_named_app, Hnone; cbn [con_name].
    destruct (decide (nm = nm)); [reflexivity | contradiction].
  - rewrite filter_named_app, Hkeep; cbn [con_name].
    destruct (decide (nm <> nm)); [contradiction | apply app_nil_r].
  - rewrite filter_named_app, Hkeep; cbn [con_name].
    destruct (decide (nm <> nm)); [contradiction | rewrite app_nil_r].
    reflexivity.
Qed.

(** ** Closed instances on the fresh scene *)

Lemma camera_is_no_corner plane_name label :
  "Camera" <> get_corner_empty_name plane_name label.
Proof. unfold get_corner_empty_name; simpl; discriminate. Qed.

Lemma create_corner_empties_keeps_objects_witness :
  find_object
    (snd (create_corner_empties inverted_translation fresh_scene rect_plane))
    "Camera"
  = Some (object_at "Camera" (vec 1 0 5) (CameraData demo_camera) None).
Proof.
  destruct (create_corner_empties_keeps_objects inverted_translation
              fresh_scene rect_plane "Camera" _ eq_refl)
    as (_ & obj' & Hf & _ & _ & He).
  rewrite Hf, He; [reflexivity|].
  intros label _; apply camera_is_no_corner.
Defined.

Lemma created_corners_drive_projection_witness :
  is_Some
    (fst (_calculate_squinch_data inverted_translation
            (snd (create_corner_empties inverted_translation fresh_scene
                    rect_plane))
            _squinch_cache)).
Proof.
  rewrite (created_corners_drive_projection inverted_translation fresh_scene
             _squinch_cache rect_plane "Camera" "Plane"
             (object_at "Camera" (vec 1 0 5) (CameraData demo_camera) None)
             (object_at "Plane" vzero (MeshData (data rect_plane)) None)
             demo_camera).
  - cbv zeta; cbn [fst]; eauto.
  - simpl; lia.
  - reflexivity.
  - reflexivity.
  - discriminate.
  - discriminate.
  - reflexivity.
  - reflexivity.
  - reflexivity.
  - reflexivity.
  - apply camera_is_no_corner.
  - apply initial_cache_miss.
Defined.

Lemma created_corners_resolve_witness :
  exists e0 e1 e2 e3,
    get_corner_empties
      (snd (create_corner_empties inverted_translation fresh_scene rect_plane))
      "Plane"
    = [Some e0; Some e1; Some e2; Some e3]
    /\ matrix_world e0
       = Translation
           (bottom_left (get_plane_corner_world_positions rect_plane)).
Proof.
  destruct (created_corners_resolve inverted_translation fresh_scene
              rect_plane)
    as (e0 & e1 & e2 & e3 & Hg & _ & _ & _ & _ & Hm & _).
  - simpl; lia.
  - exists e0, e1, e2, e3; split; [exact Hg | exact Hm].
Defined.

Lemma create_corner_empties_idempotent_witness :
  create_corner_empties inverted_translation
    (snd (create_corner_empties inverted_translation fresh_scene rect_plane))
    rect_plane
  = create_corner_empties inverted_translation fresh_scene rect_plane.
Proof.
  apply (create_corner_empties_idempotent inverted_translation fresh_scene
           rect_plane).
  simpl; lia.
Defined.

Lemma helpers_do_not_collide_witness :
  get_corner_empties
    (snd (ensure_orientation_empty inverted_translation fresh_scene
            rect_plane None))
    "Plane"
  = get_corner_empties fresh_scene "Plane".
Proof.
  apply (helpers_do_not_collide inverted_translation fresh_scene rect_plane
           None).
  simpl; lia.
Defined.
